(** * sthlmshem-sok-forrad: a shallow embedding of [main.go]

    The program logs in at stockholmshem.se, asks a widget endpoint for the
    list of free storage units and publishes an SNS message when the answer
    does not carry the "no hits" marker.

    Layout of the development:
    - [Strings], [Fmt]: the functions of Go's [strings] and [fmt] packages
      that [main.go] calls, on byte strings;
    - [Net]: requests, responses, the cookie jar interface and the
      [http.Client] the program configures;
    - [Main]: the functions of [main.go], in a state monad over the trace of
      external calls and the store of cookie jars;
    - the theorems. *)

From Stdlib Require Import ZArith Ascii String DecimalString Lia.
From stdpp Require Import base gmap list strings.

Local Open Scope Z_scope.

(** Go strings and [[]byte] are byte sequences: [string] with one [ascii] per
    byte.  A literal of this file holds the UTF-8 bytes of its text, as a Go
    literal does. *)

(* ===================================================================== *)
(** ** Package [strings] *)
(* ===================================================================== *)

Module Strings.

(** [strings.HasPrefix(s, prefix)]. *)
Fixpoint HasPrefix (s prefix : string) : bool :=
  match prefix, s with
  | EmptyString, _ => true
  | String _ _, EmptyString => false
  | String p prefix', String c s' =>
      if Ascii.eqb c p then HasPrefix s' prefix' else false
  end.

(** [strings.Contains(s, substr)]: [substr] starts at some offset of [s]. *)
Fixpoint Contains (s substr : string) : bool :=
  HasPrefix s substr ||
  match s with
  | EmptyString => false
  | String _ s' => Contains s' substr
  end.

(** The left-to-right scan of [strings.ReplaceAll] for a non-empty [old]:
    [skip] counts the bytes of a match that are still to be dropped. *)
Fixpoint replaceFrom (old new : string) (skip : nat) (s : string) : string :=
  match s with
  | EmptyString => EmptyString
  | String c s' =>
      match skip with
      | S k => replaceFrom old new k s'
      | O =>
          if HasPrefix s old
          then new +:+ replaceFrom old new (Nat.pred (String.length old)) s'
          else String c (replaceFrom old new O s')
      end
  end.

(** [strings.ReplaceAll(s, old, new)]: every non-overlapping instance of
    [old], found from the left, becomes [new].  [old == new] returns [s].
    For an empty [old] Go inserts [new] at every rune boundary; [main.go]
    only passes the constant ["{epoch}"], and the empty case is left as the
    identity here. *)
Definition ReplaceAll (s old new : string) : string :=
  match old with
  | EmptyString => s
  | String _ _ => if String.eqb old new then s else replaceFrom old new O s
  end.

(** [strings.Join(elems, sep)]. *)
Fixpoint Join (elems : list string) (sep : string) : string :=
  match elems with
  | [] => EmptyString
  | [e] => e
  | e :: es => e +:+ sep +:+ Join es sep
  end.

(** The byte [c] occurs in [s]. *)
Fixpoint IndexByte (s : string) (c : ascii) : bool :=
  match s with
  | EmptyString => false
  | String a s' => Ascii.eqb a c || IndexByte s' c
  end.

End Strings.

(* ===================================================================== *)
(** ** Package [fmt] *)
(* ===================================================================== *)

Module Fmt.

(** The operands [main.go] hands to [fmt]: strings and integers. *)
Inductive Arg : Type :=
| ArgString (s : string)
| ArgInt (n : Z).

(** [%d] of an integer: decimal digits, with a leading [-] when negative. *)
Definition FormatInt (n : Z) : string :=
  NilZero.string_of_int (Z.to_int n).

(** One verb applied to one operand; a verb that does not fit the operand
    prints Go's [%!verb(type=value)]. *)
Definition formatVerb (verb : ascii) (a : Arg) : string :=
  match a with
  | ArgString s =>
      if Ascii.eqb verb "s" || Ascii.eqb verb "v" then s
      else "%!" +:+ String verb ("(string=" +:+ s +:+ ")")
  | ArgInt n =>
      if Ascii.eqb verb "d" || Ascii.eqb verb "v" then FormatInt n
      else "%!" +:+ String verb ("(int=" +:+ FormatInt n +:+ ")")
  end.

Definition describeArg (a : Arg) : string :=
  match a with
  | ArgString s => "string=" +:+ s
  | ArgInt n => "int=" +:+ FormatInt n
  end.

(** Operands left over when the format ends: [%!(EXTRA ...)]. *)
Definition extraArgs (args : list Arg) : string :=
  match args with
  | [] => EmptyString
  | _ :: _ => "%!(EXTRA " +:+ Strings.Join (map describeArg args) ", " +:+ ")"
  end.

(** [fmt.Sprintf(format, args...)] for plain verbs (no flags or widths, which
    [main.go] does not use): bytes are copied, [%%] prints a percent sign,
    and each other [%v] consumes the next operand. *)
Fixpoint Sprintf (format : string) (args : list Arg) : string :=
  match format with
  | EmptyString => extraArgs args
  | String c rest =>
      if Ascii.eqb c "%" then
        match rest with
        | EmptyString => "%!(NOVERB)" +:+ extraArgs args
        | String verb rest' =>
            if Ascii.eqb verb "%" then String "%" (Sprintf rest' args)
            else
              match args with
              | [] => "%!" +:+ String verb ("(MISSING)" +:+ Sprintf rest' [])
              | a :: args' => formatVerb verb a +:+ Sprintf rest' args'
              end
        end
      else String c (Sprintf rest args)
  end.

End Fmt.

(* ===================================================================== *)
(** ** Errors, time and machine integers *)
(* ===================================================================== *)

(** Go's [error] values as the program meets them: the sentinel
    [http.ErrUseLastResponse], compared by identity, and errors that carry a
    message ([fmt.Errorf], and whatever a library reports). *)
Inductive error : Type :=
| ErrUseLastResponse
| ErrorString (msg : string).

(** [err.Error()]. *)
Definition Error (e : error) : string :=
  match e with
  | ErrUseLastResponse => "net/http: use last response"
  | ErrorString msg => msg
  end.

(** [fmt.Errorf(format, args...)]. *)
Definition Errorf (format : string) (args : list Fmt.Arg) : error :=
  ErrorString (Fmt.Sprintf format args).

(** Arithmetic on [int64] wraps around. *)
Definition wrap64 (z : Z) : Z := (z + 2 ^ 63) mod 2 ^ 64 - 2 ^ 63.

(** A [time.Time]: seconds since the Unix epoch and the nanoseconds within
    that second. *)
Record Time : Type := { wallSec : Z; wallNsec : Z }.

(** [t.Unix()]: whole seconds since the epoch. *)
Definition Unix (t : Time) : Z := wallSec t.

(** The instant [t] in milliseconds since the epoch. *)
Definition UnixMilli (t : Time) : Z := wallSec t * 1000 + wallNsec t / 1000000.

(** A [Time] as the clock delivers it. *)
Definition validTime (t : Time) : Prop := 0 <= wallNsec t < 1000000000.

(** The line feed of the Go escapes [\n]. *)
Definition LF : string := String (ascii_of_nat 10) EmptyString.

(* ===================================================================== *)
(** ** Package [net/http] *)
(* ===================================================================== *)

Module Net.

Record Cookie : Type := { Name : string; Value : string }.

#[global] Instance Cookie_eq_dec : EqDecision Cookie.
Proof. solve_decision. Defined.

(** An [*http.Request].  URLs are kept in their textual form; what
    [url.Parse] rejects is the world's [NewRequestErr]. *)
Record Request : Type := {
  Method : string;
  URL : string;
  Header : gmap string string;
  Payload : string;
  Sent : list Cookie            (* the cookies [AddCookie] attached *)
}.

(** What the server answers to one request. *)
Record Reply : Type := {
  ReplyStatus : Z;
  ReplyBody : error + string;   (* what reading the body to its end gives *)
  ReplyCookies : list Cookie    (* its [Set-Cookie] headers, parsed *)
}.

(** An [*http.Response]: the reply and the request it answers. *)
Record Response : Type := {
  StatusCode : Z;
  Body : error + string;
  RespCookies : list Cookie;    (* [resp.Cookies()] *)
  RespRequest : Request         (* [resp.Request] *)
}.

(** The reply a response was built from. *)
Definition replyOf (resp : Response) : Reply :=
  {| ReplyStatus := StatusCode resp; ReplyBody := Body resp;
     ReplyCookies := RespCookies resp |}.

(** The interface [http.CookieJar], with the jar [cookiejar.New(nil)]
    builds.  Jars are values here; the store of [Main] holds the mutable
    objects. *)
Class CookieJar (J : Type) : Type := {
  NewJar : J;
  SetCookies : J -> string -> list Cookie -> J;
  Cookies : J -> string -> list Cookie
}.

(** What a jar is for: it starts empty, and a cookie stored for a URL is
    handed out for that URL. *)
Class JarKeeps (J : Type) `{CookieJar J} : Prop := {
  jar_new_empty : forall u, Cookies NewJar u = [];
  jar_set_get : forall j u cs c, c ∈ cs -> c ∈ Cookies (SetCookies j u cs) u
}.

(** An [*http.Client]: [Jar] points into the store of jars, [Timeout] is a
    [time.Duration] in nanoseconds. *)
Record Client : Type := {
  Jar : nat;
  Timeout : Z;
  CheckRedirect : Request -> list Request -> option error
}.

(** [req.AddCookie] for each cookie of [cs]. *)
Definition AddCookies (req : Request) (cs : list Cookie) : Request :=
  {| Method := Method req; URL := URL req; Header := Header req;
     Payload := Payload req; Sent := Sent req ++ cs |}.

(** [sns.PublishInput]. *)
Record PublishInput : Type := {
  Subject : string;
  Message : string;
  TopicArn : string
}.

(** The text after the first [//] of a URL. *)
Fixpoint afterSlashes (u : string) : string :=
  match u with
  | EmptyString => EmptyString
  | String _ u' =>
      if Strings.HasPrefix u "//" then
        match u' with
        | EmptyString => EmptyString
        | String _ rest => rest
        end
      else afterSlashes u'
  end.

(** The text before the first [/], [?] or [#]. *)
Fixpoint upToPath (u : string) : string :=
  match u with
  | EmptyString => EmptyString
  | String c u' =>
      if Ascii.eqb c "/" || Ascii.eqb c "?" || Ascii.eqb c "#" then EmptyString
      else String c (upToPath u')
  end.

(** The host of a URL in the form [scheme://host/path?query]. *)
Definition hostOf (u : string) : string := upToPath (afterSlashes u).

(** A minimal jar, enough to run the program on examples: the stored
    cookies with the host they were stored for, newest first; a cookie
    replaces the stored one of its host and name. *)
Definition ListJar : Type := list (string * Cookie).

#[global] Instance ListJar_CookieJar : CookieJar ListJar := {
  NewJar := [];
  SetCookies j u cs :=
    map (pair (hostOf u)) cs ++
    filter (fun e => ¬ (fst e = hostOf u ∧ Name (snd e) ∈ map Name cs)) j;
  Cookies j u := map snd (filter (fun e => String.eqb (fst e) (hostOf u) = true) j)
}.

End Net.

(* ===================================================================== *)
(** ** The world outside [main.go] *)
(* ===================================================================== *)

(** The calls that leave the process, in the order they are made. *)
Inductive Event : Type :=
| EvLookupEnv (key : string)
| EvNow
| EvRoundTrip (req : Net.Request)
| EvReadAll
| EvLog (line : string)
| EvLoadAWSConfig
| EvPublish (input : Net.PublishInput).

#[global] Instance Request_eq_dec : EqDecision Net.Request.
Proof. solve_decision. Defined.

#[global] Instance PublishInput_eq_dec : EqDecision Net.PublishInput.
Proof. solve_decision. Defined.

#[global] Instance Event_eq_dec : EqDecision Event.
Proof. solve_decision. Defined.

(** What the environment answers.  Every answer may depend on the calls made
    so far.

    [Redirect req reply] is [None] when the reply to [req] is not a redirect
    for the client, [Some (inr next)] when it is one and [next] is the
    request its [Location] leads to, and [Some (inl err)] when it is one and
    the client cannot use its [Location]: [client.Do] then ends with [err]
    without asking [CheckRedirect]. *)
Record World : Type := {
  Environ : gmap string string;                       (* the process environment *)
  Clock : list Event -> Time;                         (* [time.Now()] *)
  cookiejarNewErr : option error;                     (* the error of [cookiejar.New] *)
  NewRequestErr : string -> string -> option error;   (* [http.NewRequest] rejects method, url *)
  CanonicalMIMEHeaderKey : string -> string;          (* the key [Header.Set] stores under *)
  RoundTrip : list Event -> Net.Request -> error + Net.Reply;
                                                      (* one exchange, or the error [Do] reports *)
  Redirect : Net.Request -> Net.Reply -> option (error + Net.Request);
                                                      (* what a redirect reply asks for *)
  Hops : nat;                                         (* redirects served before [Timeout] expires *)
  LoadDefaultAWSConfigErr : list Event -> option error;
  PublishErr : list Event -> Net.PublishInput -> option error
}.


(* ===================================================================== *)
(** ** The state monad of the program *)
(* ===================================================================== *)

(** The state of one invocation: the external calls made so far, oldest
    first, and the cookie jars allocated so far.  A client points at its jar
    by index, so that every holder of the client sees the jar's updates. *)
Record State (J : Type) : Type := {
  trace : list Event;
  jars : list J
}.

Arguments trace {J} _.
Arguments jars {J} _.

Definition M (J A : Type) : Type := State J -> A * State J.

Definition ret {J A : Type} (a : A) : M J A := fun st => (a, st).

Definition bind {J A B : Type} (m : M J A) (k : A -> M J B) : M J B :=
  fun st => let (a, st') := m st in k a st'.

Notation "x <- m ;; k" := (bind m (fun x => k))
  (at level 100, m at level 99, right associativity).
Notation "m ;;; k" := (bind m (fun _ => k))
  (at level 100, right associativity).

(** The calls made so far. *)
Definition history {J : Type} : M J (list Event) := fun st => (trace st, st).

(** Record one external call. *)
Definition emit {J : Type} (e : Event) : M J unit :=
  fun st => (tt, {| trace := trace st ++ [e]; jars := jars st |}).

(* ===================================================================== *)
(** ** [main.go] *)
(* ===================================================================== *)

Module Main.

Import Strings Fmt Net.

Definition searchString : string := "Sökningen gav inga träffar".

Definition snsSubject : string := "Nytt förråd!".

Definition snsMessage : string :=
  "Det verkar finnas ett nytt förråd tillgängligt!" +:+ LF +:+ LF +:+
  "Gå till https://www.stockholmshem.se/mina-sidor/smaforrad/ för att kontrollera".

Definition headers : gmap string string :=
  <["User-Agent" := "Mozilla/5.0 (Macintosh; Intel Mac OS X 10_15_0) AppleWebKit/537.36 (KHTML, like Gecko) Chrome/84.0.4147.89 Safari/537.36"]>
  (<["Accept" := "*/*"]>
  (<["Content-Type" := "application/x-www-form-urlencoded"]> ∅)).

Definition loginURL : string :=
  "https://www.stockholmshem.se/logga-in/?returnUrl=/mina-sidor/smaforrad/".

Definition forradURL : string :=
  "https://www.stockholmshem.se/widgets/?callback=jQuery17105048823634686723_{epoch}&widgets%5B%5D=alert&widgets%5B%5D=objektlista%40forrad&_={epoch}".

Section Program.

Context {J : Type} `{CookieJar J}.
Variable w : World.

(** *** The library calls, as effects *)

(** [os.LookupEnv(key)]. *)
Definition LookupEnv (key : string) : M J (option string) :=
  emit (EvLookupEnv key) ;;; ret (Environ w !! key).

(** [time.Now()]. *)
Definition Now : M J Time :=
  tr <- history ;; emit EvNow ;;; ret (Clock w tr).

(** [log.Printf(format)]. *)
Definition Printf (format : string) (args : list Arg) : M J unit :=
  emit (EvLog (Sprintf format args)).

(** [cookiejar.New(nil)]: a fresh jar in the store, or the library's error. *)
Definition cookiejarNew : M J (error + nat) :=
  match cookiejarNewErr w with
  | Some err => ret (inl err)
  | None => fun st =>
      (inr (length (jars st)),
       {| trace := trace st; jars := jars st ++ [NewJar] |})
  end.

(** The jar a client points at.  A client gets its pointer from
    [cookiejarNew], so it points into the store; outside of it a read gives
    a new jar and a write changes nothing. *)
Definition readJar (p : nat) : M J J :=
  fun st => (default NewJar (jars st !! p), st).

(** [jar.SetCookies(u, cookies)] on the jar at [p]. *)
Definition JarSetCookies (p : nat) (u : string) (cookies : list Cookie) : M J unit :=
  fun st =>
    (tt, {| trace := trace st;
            jars := alter (fun j => SetCookies j u cookies) p (jars st) |}).

(** [http.NewRequest(method, url, body)]: no header, no cookie. *)
Definition NewRequest (method url payload : string) : error + Request :=
  match NewRequestErr w method url with
  | Some err => inl err
  | None => inr {| Method := method; URL := url; Header := ∅;
                   Payload := payload; Sent := [] |}
  end.

(** [req.Header.Set(key, val)]. *)
Definition HeaderSet (key val : string) (req : Request) : Request :=
  {| Method := Method req; URL := URL req;
     Header := <[CanonicalMIMEHeaderKey w key := val]> (Header req);
     Payload := Payload req; Sent := Sent req |}.

(** One exchange of [client.Do] ([Client.send]).  Of the [Jar] of a client
    the documentation of [net/http] says: "The Jar is used to insert
    relevant cookies into every outbound Request and is updated with the
    cookie values of every inbound Response."  So the jar's cookies for the
    URL go out with the request, and the client calls [SetCookies] with the
    cookies of the reply when there are any, whatever its status. *)
Definition exchange (client : Client) (req : Request) : M J (error + Response) :=
  jar <- readJar (Jar client) ;;
  let req := AddCookies req (Cookies jar (URL req)) in
  tr <- history ;;
  emit (EvRoundTrip req) ;;;
  match RoundTrip w tr req with
  | inl err => ret (inl err)
  | inr reply =>
      match ReplyCookies reply with
      | [] => ret tt
      | rc => JarSetCookies (Jar client) (URL req) rc
      end ;;;
      ret (inr {| StatusCode := ReplyStatus reply; Body := ReplyBody reply;
                  RespCookies := ReplyCookies reply; RespRequest := req |})
  end.

(** The loop of [client.Do]: the next request of a reply that asks for a
    redirect is put to [CheckRedirect]; [ErrUseLastResponse] hands the reply
    to the caller, any other error ends the call, and [nil] follows the
    redirect.  [hops] bounds the redirects the world serves before the
    client's timeout ends the call. *)
Fixpoint doLoop (hops : nat) (client : Client) (req : Request)
    (via : list Request) : M J (error + Response) :=
  r <- exchange client req ;;
  match r with
  | inl err => ret (inl err)
  | inr resp =>
      let sent := RespRequest resp in
      match Redirect w sent (replyOf resp) with
      | None => ret (inr resp)
      | Some (inl err) => ret (inl err)
      | Some (inr next) =>
          match CheckRedirect client next (via ++ [sent]) with
          | Some ErrUseLastResponse => ret (inr resp)
          | Some err => ret (inl err)
          | None =>
              match hops with
              | O => ret (inl (ErrorString "net/http: request canceled (Client.Timeout exceeded while awaiting headers)"))
              | S hops' => doLoop hops' client next (via ++ [sent])
              end
          end
      end
  end.

(** [client.Do(req)]. *)
Definition Do (client : Client) (req : Request) : M J (error + Response) :=
  doLoop (Hops w) client req [].

(** [ioutil.ReadAll(resp.Body)]. *)
Definition ReadAll (resp : Response) : M J (error + string) :=
  emit EvReadAll ;;; ret (Body resp).

(** [external.LoadDefaultAWSConfig()]; the configuration itself plays no
    part. *)
Definition LoadDefaultAWSConfig : M J (option error) :=
  tr <- history ;; emit EvLoadAWSConfig ;;; ret (LoadDefaultAWSConfigErr w tr).

(** [svc.PublishRequest(input).Send(ctx)]. *)
Definition PublishSend (input : PublishInput) : M J (option error) :=
  tr <- history ;; emit (EvPublish input) ;;; ret (PublishErr w tr input).

(** *** The functions of [main.go] *)

(** A Go pair [(value, error)] of which exactly one is set is a sum; where
    both may be set, as for [sendHTTPRequest], it is a pair whose [nil] byte
    slice is the empty string. *)

Definition createHTTPClient (timeout : Z) : M J (error + Client) :=
  r <- cookiejarNew ;;
  match r with
  | inl err =>
      ret (inl (Errorf "couldn't create cookie jar. %s" [ArgString (Error err)]))
  | inr jar =>
      ret (inr {| Jar := jar;
                  Timeout := wrap64 (1000000 * timeout);
                  CheckRedirect := fun req via => Some ErrUseLastResponse |})
  end.

(** The loop over [headers] is a fold over the map.  Go visits the keys in
    no fixed order; the order shows only when two keys have one canonical
    form, and never in the method, URL, payload or cookies of the request. *)
Definition createHTTPRequest (method url payload : string)
    (headers : gmap string string) : M J (error + Request) :=
  t <- Now ;;
  let now := wrap64 (Unix t * 1000) in
  let url := ReplaceAll url "{epoch}" (Sprintf "%d" [ArgInt now]) in
  match NewRequest method url payload with
  | inl err =>
      ret (inl (Errorf "couldn't create request for %s %s. %s"
                  [ArgString method; ArgString url; ArgString (Error err)]))
  | inr req =>
      ret (inr (map_fold HeaderSet req headers))
  end.

Definition sendHTTPRequest (client : Client) (req : Request) (statusCode : Z)
    : M J (string * option error) :=
  r <- Do client req ;;
  match r with
  | inl err =>
      ret (EmptyString,
           Some (Errorf "couldn't send http request. %s" [ArgString (Error err)]))
  | inr resp =>
      b <- ReadAll resp ;;
      match b with
      | inl err =>
          ret (EmptyString,
               Some (Errorf "couldn't read body of response. %s" [ArgString (Error err)]))
      | inr body =>
          if negb (StatusCode resp =? statusCode) then
            ret (body,
                 Some (Errorf "status code missmatch. wanted %d got %d for %s"
                         [ArgInt statusCode; ArgInt (StatusCode resp);
                          ArgString (URL (RespRequest resp))]))
          else
            JarSetCookies (Jar client) (URL (RespRequest resp)) (RespCookies resp) ;;;
            ret (body, None)
      end
  end.

Definition createLoginPayload : M J (string * option error) :=
  user <- LookupEnv "PERSONNR" ;;
  match user with
  | None => ret (EmptyString, Some (Errorf "couldn't get PERSONNR from environment" []))
  | Some user =>
      pass <- LookupEnv "PASSWORD" ;;
      match pass with
      | None => ret (EmptyString, Some (Errorf "couldn't get PASSWORD from environment" []))
      | Some pass =>
          ret (Sprintf "Username=%s&Password=%s" [ArgString user; ArgString pass], None)
      end
  end.

Definition login (client : Client) (headers : gmap string string) : M J (option error) :=
  p <- createLoginPayload ;;
  match snd p with
  | Some err => ret (Some err)
  | None =>
      r <- createHTTPRequest "POST" loginURL (fst p) headers ;;
      match r with
      | inl err => ret (Some err)
      | inr req =>
          s <- sendHTTPRequest client req 302 ;;
          match snd s with
          | Some err => ret (Some err)
          | None => ret None
          end
      end
  end.

Definition forrad (client : Client) (headers : gmap string string)
    : M J (bool * option error) :=
  r <- createHTTPRequest "GET" forradURL EmptyString headers ;;
  match r with
  | inl err => ret (false, Some err)
  | inr req =>
      s <- sendHTTPRequest client req 200 ;;
      match snd s with
      | Some err => ret (false, Some err)
      | None => ret (negb (Contains (fst s) searchString), None)
      end
  end.

(** [send(ctx, new)]; the context only carries the host's cancellation. *)
Definition send (new : bool) : M J (option error) :=
  if negb new then ret None
  else
    Printf ("New förråd detected!" +:+ LF) [] ;;;
    topic <- LookupEnv "TOPIC" ;;
    match topic with
    | None => ret (Some (Errorf "couldn't get TOPIC from environment" []))
    | Some topic =>
        cfg <- LoadDefaultAWSConfig ;;
        match cfg with
        | Some err =>
            ret (Some (Errorf "couldn't load AWS config. %s" [ArgString (Error err)]))
        | None =>
            r <- PublishSend {| Subject := snsSubject; Message := snsMessage;
                                TopicArn := topic |} ;;
            match r with
            | Some err =>
                ret (Some (Errorf "couldn't publish to sns. %s" [ArgString (Error err)]))
            | None => ret None
            end
        end
    end.

Definition handler : M J (option error) :=
  c <- createHTTPClient 10000 ;;
  match c with
  | inl err => ret (Some err)
  | inr client =>
      e <- login client headers ;;
      match e with
      | Some err => ret (Some err)
      | None =>
          n <- forrad client headers ;;
          match snd n with
          | Some err => ret (Some err)
          | None => send (fst n)
          end
      end
  end.

End Program.

End Main.

(* ===================================================================== *)
(** ** Worlds to run the program in *)
(* ===================================================================== *)

Module Fixture.

Import Net.

Definition sessionCookie : Cookie := {| Name := "X"; Value := "1" |}.

(** The site accepts the login: 302 with a session cookie. *)
Definition loginOK : Reply :=
  {| ReplyStatus := 302; ReplyBody := inr EmptyString;
     ReplyCookies := [sessionCookie] |}.

(** The site shows the login page again: 200, and a cookie all the same. *)
Definition loginRejected : Reply :=
  {| ReplyStatus := 200; ReplyBody := inr "<html>Logga in</html>";
     ReplyCookies := [sessionCookie] |}.

(** The widget answer with this text, 200. *)
Definition widget (text : string) : Reply :=
  {| ReplyStatus := 200; ReplyBody := inr text; ReplyCookies := [] |}.

(** The instant 2020-07-27 12:00:00.123456789 UTC. *)
Definition noon : Time := {| wallSec := 1595851200; wallNsec := 123456789 |}.

(** A world with the given environment and the given answers to the POST
    and to the GET; a 3xx reply asks for a GET of the account page. *)
Definition world (env : gmap string string) (post get : Reply)
    (aws : option error) : World :=
  {| Environ := env;
     Clock := fun _ => noon;
     cookiejarNewErr := None;
     NewRequestErr := fun _ _ => None;
     CanonicalMIMEHeaderKey := fun k => k;
     RoundTrip := fun _ req =>
       if String.eqb (Method req) "POST" then inr post else inr get;
     Redirect := fun req reply =>
       if (300 <=? ReplyStatus reply) && (ReplyStatus reply <? 400)
       then Some (inr {| Method := "GET";
                          URL := "https://www.stockholmshem.se/mina-sidor/smaforrad/";
                          Header := Header req; Payload := EmptyString;
                          Sent := [] |})
       else None;
     Hops := 10;
     LoadDefaultAWSConfigErr := fun _ => aws;
     PublishErr := fun _ _ => None |}.

Definition fullEnv : gmap string string :=
  <["PERSONNR" := "19700101-0000"]>
  (<["PASSWORD" := "p&ss%20word"]>
  (<["TOPIC" := "arn:aws:sns:eu-north-1:000000000000:forrad"]> ∅)).

(** The state an invocation starts in. *)
Definition start : State ListJar := {| trace := []; jars := [] |}.

(** The state after [createHTTPClient], and the client it returns. *)
Definition session : State ListJar := {| trace := []; jars := [NewJar] |}.

Definition client : Client :=
  {| Jar := 0;
     Timeout := 10000000000;
     CheckRedirect := fun _ _ => Some ErrUseLastResponse |}.

(** A widget answer without the marker, and one with it. *)
Definition unitsText : string :=
  "jQuery17105048823634686723_1595851200000({widgets:[{id:4711}]})".

Definition noHitsText : string :=
  "jQuery17105048823634686723_1595851200000(<p>Sökningen gav inga träffar</p>)".

(** The login succeeds and units are listed. *)
Definition unitsFree : World := world fullEnv loginOK (widget unitsText) None.

(** The login succeeds and nothing is listed. *)
Definition nothingFree : World := world fullEnv loginOK (widget noHitsText) None.

(** The login is rejected. *)
Definition rejected : World := world fullEnv loginRejected (widget unitsText) None.

(** Units are listed, and the AWS configuration does not load. *)
Definition noAWS : World :=
  world fullEnv loginOK (widget unitsText)
    (Some (ErrorString "failed to load shared config")).

(** The payload of the login in these worlds. *)
Definition payload : string := "Username=19700101-0000&Password=p&ss%20word".

(** The login request of these worlds, before the jar's cookies are
    attached. *)
Definition post : Request :=
  {| Method := "POST"; URL := Main.loginURL; Header := Main.headers;
     Payload := payload; Sent := [] |}.

End Fixture.

(* ===================================================================== *)
(** ** The vocabulary of the statements *)
(* ===================================================================== *)

Module Vocabulary.

(** [sub] occurs in [s]: some bytes, then [sub], then the rest.  This is the
    reading of "contains" that [Strings.Contains] is compared with. *)
Definition occursIn (sub s : string) : Prop :=
  exists l r : string, s = l +:+ sub +:+ r.

(** No byte of [a] occurs in [b]. *)
Definition noByteOf (a b : string) : Prop :=
  forall c, Strings.IndexByte a c = true -> Strings.IndexByte b c = false.

(** The state [st] after the external calls [evs]. *)
Definition after {J : Type} (st : State J) (evs : list Event) : State J :=
  {| trace := trace st ++ evs; jars := jars st |}.

(** The requests that went out on the network, oldest first. *)
Fixpoint roundTrips (tr : list Event) : list Net.Request :=
  match tr with
  | [] => []
  | EvRoundTrip req :: tr' => req :: roundTrips tr'
  | _ :: tr' => roundTrips tr'
  end.

(** The messages handed to SNS, oldest first. *)
Fixpoint publishes (tr : list Event) : list Net.PublishInput :=
  match tr with
  | [] => []
  | EvPublish input :: tr' => input :: publishes tr'
  | _ :: tr' => publishes tr'
  end.

(** The loads of the AWS configuration. *)
Fixpoint configLoads (tr : list Event) : nat :=
  match tr with
  | [] => O
  | EvLoadAWSConfig :: tr' => S (configLoads tr')
  | _ :: tr' => configLoads tr'
  end.

(** The environment variables looked up, oldest first. *)
Fixpoint lookups (tr : list Event) : list string :=
  match tr with
  | [] => []
  | EvLookupEnv key :: tr' => key :: lookups tr'
  | _ :: tr' => lookups tr'
  end.

(** The error of a missing environment variable. *)
Definition missingVariable (name : string) : error :=
  ErrorString ("couldn't get " +:+ name +:+ " from environment").

(** The message [send] publishes to [topic]. *)
Definition notification (topic : string) : Net.PublishInput :=
  {| Net.Subject := Main.snsSubject; Net.Message := Main.snsMessage;
     Net.TopicArn := topic |}.

(** The error of a status that is not the wanted one. *)
Definition statusMismatch (wanted got : Z) (url : string) : error :=
  ErrorString ("status code missmatch. wanted " +:+ Fmt.FormatInt wanted +:+
               " got " +:+ Fmt.FormatInt got +:+ " for " +:+ url).

(** The store of jars after [SetCookies(u, cs)] on the jar at [p]. *)
Definition storeCookies {J : Type} `{Net.CookieJar J}
    (p : nat) (u : string) (cs : list Net.Cookie) (js : list J) : list J :=
  alter (fun j => Net.SetCookies j u cs) p js.

(** The jar at [p]. *)
Definition jarAt {J : Type} `{Net.CookieJar J} (p : nat) (js : list J) : J :=
  default Net.NewJar (js !! p).

(** The policy of a client that hands every redirect reply to its caller. *)
Definition lastResponse (client : Net.Client) : Prop :=
  forall req via, Net.CheckRedirect client req via = Some ErrUseLastResponse.

(** The policy of a client that follows no redirect. *)
Definition followsNothing (client : Net.Client) : Prop :=
  forall req via, Net.CheckRedirect client req via <> None.

(** The reply to [sent] is no redirect with a [Location] the client cannot
    use. *)
Definition usable (w : World) (sent : Net.Request) (reply : Net.Reply) : Prop :=
  forall err, Redirect w sent reply <> Some (inl err).

(** The response a client builds from the reply to the request it sent. *)
Definition responseOf (sent : Net.Request) (reply : Net.Reply) : Net.Response :=
  {| Net.StatusCode := Net.ReplyStatus reply; Net.Body := Net.ReplyBody reply;
     Net.RespCookies := Net.ReplyCookies reply; Net.RespRequest := sent |}.

(** The request as it leaves: the jar's cookies for its URL attached. *)
Definition outgoing {J : Type} `{Net.CookieJar J}
    (client : Net.Client) (req : Net.Request) (st : State J) : Net.Request :=
  Net.AddCookies req
    (Net.Cookies (jarAt (Net.Jar client) (jars st)) (Net.URL req)).

(** The store with one more jar, as [cookiejar.New] leaves it. *)
Definition withJar {J : Type} `{Net.CookieJar J} (st : State J) : State J :=
  {| trace := trace st; jars := jars st ++ [Net.NewJar] |}.

(** The client [handler] creates in the state [st]. *)
Definition sessionClient {J : Type} (st : State J) : Net.Client :=
  {| Net.Jar := length (jars st);
     Net.Timeout := wrap64 (1000000 * 10000);
     Net.CheckRedirect := fun _ _ => Some ErrUseLastResponse |}.

(** The request [login] builds for a payload. *)
Definition loginRequest (w : World) (payload : string) : Net.Request :=
  map_fold (Main.HeaderSet w)
    {| Net.Method := "POST"; Net.URL := Main.loginURL; Net.Header := ∅;
       Net.Payload := payload; Net.Sent := [] |}
    Main.headers.

(** The line [send] logs. *)
Definition detectedLine : string := "New förråd detected!" +:+ LF.

End Vocabulary.

(* ===================================================================== *)
(** ** What a step may do, and worlds that fail *)
(* ===================================================================== *)

Module Frames.

Import Net.

(** The calls of the scraping steps: environment, clock, network. *)
Definition fetchEvent (e : Event) : bool :=
  match e with
  | EvLookupEnv _ | EvNow | EvRoundTrip _ | EvReadAll => true
  | EvLog _ | EvLoadAWSConfig | EvPublish _ => false
  end.

(** The calls of building and sending a request: clock and network. *)
Definition netEvent (e : Event) : bool :=
  match e with
  | EvNow | EvRoundTrip _ | EvReadAll => true
  | EvLookupEnv _ | EvLog _ | EvLoadAWSConfig | EvPublish _ => false
  end.

(** [st'] is [st] after some calls that all satisfy [P]. *)
Definition grows {J : Type} (P : Event -> bool) (st st' : State J) : Prop :=
  exists evs, trace st' = trace st ++ evs /\ forallb P evs = true.

(** The widget URL with a stamp in both places. *)
Definition widgetURL (stamp : string) : string :=
  "https://www.stockholmshem.se/widgets/?callback=jQuery17105048823634686723_" +:+
  stamp +:+ "&widgets%5B%5D=alert&widgets%5B%5D=objektlista%40forrad&_=" +:+ stamp.

(** A request to the login endpoint. *)
Definition isLoginRequest (r : Request) : Prop :=
  Method r = "POST" /\ URL r = Main.loginURL.

(** A request to the widget endpoint, stamped with an integer. *)
Definition isWidgetRequest (r : Request) : Prop :=
  Method r = "GET" /\ Payload r = EmptyString /\
  exists n, URL r = widgetURL (Fmt.FormatInt n).

(** The requests of one invocation: none, the login, or the login and then
    the widget. *)
Definition loginThenWidget (reqs : list Request) : Prop :=
  reqs = [] \/
  (exists p, reqs = [p] /\ isLoginRequest p) \/
  (exists p g, reqs = [p; g] /\ isLoginRequest p /\ isWidgetRequest g).

(** A world like [Fixture.unitsFree] in which no connection can be made. *)
Definition offline : World :=
  {| Environ := Fixture.fullEnv;
     Clock := fun _ => Fixture.noon;
     cookiejarNewErr := None;
     NewRequestErr := fun _ _ => None;
     CanonicalMIMEHeaderKey := fun k => k;
     RoundTrip := fun _ _ => inl (ErrorString "dial tcp: i/o timeout");
     Redirect := fun _ _ => None;
     Hops := 10;
     LoadDefaultAWSConfigErr := fun _ => None;
     PublishErr := fun _ _ => None |}.

(** A world like [Fixture.unitsFree] whose library rejects methods with a
    blank. *)
Definition strict : World :=
  {| Environ := Fixture.fullEnv;
     Clock := fun _ => Fixture.noon;
     cookiejarNewErr := None;
     NewRequestErr := fun method _ =>
       if Strings.IndexByte method " "
       then Some (ErrorString "net/http: invalid method")
       else None;
     CanonicalMIMEHeaderKey := fun k => k;
     RoundTrip := fun _ _ => inr (Fixture.widget Fixture.unitsText);
     Redirect := fun _ _ => None;
     Hops := 10;
     LoadDefaultAWSConfigErr := fun _ => None;
     PublishErr := fun _ _ => None |}.

(** The login succeeds, and the widget endpoint answers with a redirect to
    the login page, as for a session that is not accepted. *)
Definition expired : World :=
  Fixture.world Fixture.fullEnv Fixture.loginOK
    {| ReplyStatus := 302; ReplyBody := inr EmptyString; ReplyCookies := [] |}
    None.

End Frames.

(* ===================================================================== *)
(** * Facts about the library functions *)
(* ===================================================================== *)

(** stdpp keeps [simpl] from unfolding the append of strings; the proofs
    below compute with it. *)
#[local] Arguments String.append !_ _ : simpl nomatch.

Module StringsFacts.

Import Strings Vocabulary.

Lemma append_empty_r (s : string) : s +:+ EmptyString = s.
Proof. induction s as [|c s IH]; simpl; [reflexivity | now rewrite IH]. Qed.

Lemma append_assoc (a b c : string) : (a +:+ b) +:+ c = a +:+ b +:+ c.
Proof. induction a as [|x a IH]; simpl; [reflexivity | now rewrite IH]. Qed.

Lemma HasPrefix_empty (s : string) : HasPrefix s EmptyString = true.
Proof. destruct s; reflexivity. Qed.

Lemma HasPrefix_cons (c p : ascii) (s prefix : string) :
  HasPrefix (String c s) (String p prefix) = true <->
  c = p /\ HasPrefix s prefix = true.
Proof.
  simpl. destruct (Ascii.eqb_spec c p) as [->|Hne]; split.
  - intros Hp. now split.
  - now intros [_ Hp].
  - discriminate.
  - intros [Heq _]. contradiction.
Qed.

(** [HasPrefix] decides "[s] starts with [prefix]". *)
Lemma HasPrefix_spec (s prefix : string) :
  HasPrefix s prefix = true <-> exists r, s = prefix +:+ r.
Proof.
  revert s. induction prefix as [|p prefix IH]; intros s.
  - rewrite HasPrefix_empty. split; [intros _; now exists s | reflexivity].
  - destruct s as [|c s].
    + simpl. split; [discriminate | intros [r Hr]; discriminate].
    + rewrite HasPrefix_cons, IH. split.
      * intros [-> [r ->]]. now exists r.
      * intros [r Hr]. simpl in Hr. injection Hr as -> ->. split; [reflexivity | now exists r].
Qed.

Lemma HasPrefix_append (p r : string) : HasPrefix (p +:+ r) p = true.
Proof. apply HasPrefix_spec. now exists r. Qed.

Lemma Contains_unfold (s sub : string) :
  Contains s sub =
  HasPrefix s sub ||
  match s with EmptyString => false | String _ s' => Contains s' sub end.
Proof. destruct s; reflexivity. Qed.

(** [Contains] decides [occursIn]. *)
Lemma Contains_spec (s sub : string) :
  Contains s sub = true <-> occursIn sub s.
Proof.
  unfold occursIn. induction s as [|c s IH].
  - change (Contains EmptyString sub) with (HasPrefix EmptyString sub || false).
    rewrite orb_false_r, HasPrefix_spec. split.
    + intros [r Hr]. now exists EmptyString, r.
    + intros [[|x l] [r Hr]]; [now exists r | discriminate].
  - rewrite Contains_unfold, orb_true_iff, HasPrefix_spec, IH. split.
    + intros [[r Hr] | [l [r Hr]]].
      * now exists EmptyString, r.
      * exists (String c l), r. simpl. now rewrite Hr.
    + intros [[|x l] [r Hr]].
      * left. now exists r.
      * right. simpl in Hr. injection Hr as -> ->. now exists l, r.
Qed.

Lemma Contains_false_spec (s sub : string) :
  Contains s sub = false <-> ~ occursIn sub s.
Proof.
  rewrite <- Contains_spec. destruct (Contains s sub); split; easy.
Qed.

Lemma Contains_middle (l sub r : string) : Contains (l +:+ sub +:+ r) sub = true.
Proof. apply Contains_spec. now exists l, r. Qed.

Lemma Contains_cons_false (c : ascii) (s sub : string) :
  Contains (String c s) sub = false ->
  HasPrefix (String c s) sub = false /\ Contains s sub = false.
Proof. rewrite Contains_unfold. apply orb_false_iff. Qed.

End StringsFacts.

Module ReplaceFacts.

Import Strings Vocabulary StringsFacts.

Lemma IndexByte_cons (a c : ascii) (s : string) :
  IndexByte (String a s) c = true <-> a = c \/ IndexByte s c = true.
Proof. simpl. rewrite orb_true_iff, Ascii.eqb_eq. reflexivity. Qed.

Lemma noByteOf_tail (a : ascii) (s t : string) :
  noByteOf (String a s) t -> IndexByte t a = false /\ noByteOf s t.
Proof.
  intros Hd. split.
  - apply Hd. apply IndexByte_cons. now left.
  - intros c Hc. apply Hd. apply IndexByte_cons. now right.
Qed.

Section Scan.

Variables (o : ascii) (old' new : string).
Let old : string := String o old'.

(** Dropping the rest of a match resumes the scan behind it. *)
Lemma replaceFrom_skip (x rest : string) :
  replaceFrom old new (String.length x) (x +:+ rest) = replaceFrom old new O rest.
Proof. induction x as [|c x IH]; simpl; [reflexivity | exact IH]. Qed.

(** A match at the head is replaced, and the scan resumes behind it. *)
Lemma replaceFrom_match (rest : string) :
  replaceFrom old new O (old +:+ rest) = new +:+ replaceFrom old new O rest.
Proof.
  unfold old at 2. change (String o old' +:+ rest) with (String o (old' +:+ rest)).
  cbn [replaceFrom].
  change (String o (old' +:+ rest)) with (old +:+ rest).
  rewrite HasPrefix_append. f_equal. apply replaceFrom_skip.
Qed.

(** Without a match at the head, the first byte is copied. *)
Lemma replaceFrom_copy (c : ascii) (s : string) :
  HasPrefix (String c s) old = false ->
  replaceFrom old new O (String c s) = String c (replaceFrom old new O s).
Proof. intros Hp. cbn [replaceFrom]. now rewrite Hp. Qed.

(** A text without [old] is left as it is. *)
Lemma replaceFrom_absent (s : string) :
  Contains s old = false -> replaceFrom old new O s = s.
Proof.
  induction s as [|c s IH]; [reflexivity |].
  intros [Hp Hc]%Contains_cons_false.
  rewrite replaceFrom_copy by exact Hp. now rewrite IH.
Qed.

(** What the output starts with, when that shares no byte with [new], the
    input starts with too. *)
Lemma replaceFrom_prefix (p s : string) :
  new <> EmptyString -> noByteOf p new ->
  HasPrefix (replaceFrom old new O s) p = true -> HasPrefix s p = true.
Proof.
  intros Hnew. revert s. induction p as [|a p IH]; intros s Hd Hp.
  - apply HasPrefix_empty.
  - apply noByteOf_tail in Hd as [Ha Hd].
    destruct s as [|c s]; [discriminate Hp |].
    cbn [replaceFrom] in Hp. destruct (HasPrefix (String c s) old).
    + destruct new as [|n new']; [contradiction |].
      simpl in Hp. simpl in Ha. destruct (Ascii.eqb n a); [discriminate Ha | discriminate Hp].
    + apply HasPrefix_cons in Hp as [-> Hp]. apply HasPrefix_cons. auto.
Qed.

(** A copy of [new] in front adds no occurrence of [old]. *)
Lemma Contains_new_append (t : string) :
  IndexByte new o = false -> Contains (new +:+ t) old = Contains t old.
Proof.
  induction new as [|n new' IH]; [reflexivity |].
  simpl. intros [Hn Hrest]%orb_false_iff.
  rewrite Hn. simpl. auto.
Qed.

(** The output of the scan holds no [old], when [new] is not empty and
    shares no byte with [old]. *)
Lemma replaceFrom_clean (s : string) (skip : nat) :
  new <> EmptyString -> noByteOf old new ->
  Contains (replaceFrom old new skip s) old = false.
Proof.
  intros Hnew Hd. revert skip. induction s as [|c s IH]; intros skip.
  - reflexivity.
  - destruct skip as [|k]; [| apply IH].
    destruct (HasPrefix (String c s) old) eqn:Hp.
    + cbn [replaceFrom]. rewrite Hp, Contains_new_append; [apply IH |].
      apply Hd. apply IndexByte_cons. now left.
    + rewrite replaceFrom_copy by exact Hp.
      rewrite Contains_unfold, IH, orb_false_r.
      rewrite <- replaceFrom_copy by exact Hp.
      destruct (HasPrefix (replaceFrom old new O (String c s)) old) eqn:Hq; [| reflexivity].
      apply replaceFrom_prefix in Hq; [congruence | exact Hnew | exact Hd].
Qed.

(** [old], whose first byte does not come back in it, cannot start inside
    the text in front of an occurrence of it. *)
Lemma HasPrefix_before (p q t : string) :
  IndexByte p o = false ->
  HasPrefix (q +:+ String o t) p = true -> HasPrefix q p = true.
Proof.
  revert p. induction q as [|c q IH]; intros [|a p] Ho Hp; try reflexivity.
  - simpl in Hp, Ho. apply orb_false_iff in Ho as [Ha _].
    rewrite Ascii.eqb_sym, Ha in Hp. discriminate.
  - simpl in Ho. apply orb_false_iff in Ho as [_ Ho].
    change (String c q +:+ String o t) with (String c (q +:+ String o t)) in Hp.
    apply HasPrefix_cons in Hp as [-> Hp]. apply HasPrefix_cons. eauto.
Qed.

(** The text in front of the first occurrence is copied, the occurrence is
    replaced. *)
Lemma replaceFrom_first (p rest : string) :
  IndexByte old' o = false -> Contains p old = false ->
  replaceFrom old new O (p +:+ old +:+ rest) =
  p +:+ new +:+ replaceFrom old new O rest.
Proof.
  intros Ho. induction p as [|c p IH]; intros Hc.
  - apply replaceFrom_match.
  - apply Contains_cons_false in Hc as [Hp Hc].
    change (String c p +:+ old +:+ rest) with (String c (p +:+ old +:+ rest)).
    rewrite replaceFrom_copy.
    + rewrite IH by exact Hc. reflexivity.
    + destruct (HasPrefix (String c (p +:+ old +:+ rest)) old) eqn:Hq; [| reflexivity].
      apply HasPrefix_cons in Hq as [-> Hq].
      apply HasPrefix_before in Hq; [| exact Ho].
      assert (HasPrefix (String o p) old = true) by (apply HasPrefix_cons; auto).
      congruence.
Qed.

(** On pieces that hold no [old], joined by [old], the scan joins the same
    pieces by [new]. *)
Lemma replaceFrom_Join (pieces : list string) :
  IndexByte old' o = false ->
  Forall (fun p => Contains p old = false) pieces ->
  replaceFrom old new O (Join pieces old) = Join pieces new.
Proof.
  intros Ho. induction 1 as [|p ps Hp Hps IH]; [reflexivity |].
  destruct ps as [|p' ps].
  - apply replaceFrom_absent, Hp.
  - change (Join (p :: p' :: ps) old) with (p +:+ old +:+ Join (p' :: ps) old).
    rewrite replaceFrom_first by assumption. now rewrite IH.
Qed.

(** Every text is pieces without [old], joined by [old]. *)
Lemma Join_cut (s : string) :
  exists pieces, Forall (fun p => Contains p old = false) pieces /\
                 s = Join pieces old.
Proof.
  enough (exists p ps, Forall (fun p => Contains p old = false) (p :: ps) /\
                       s = Join (p :: ps) old)
    as (p & ps & Hp) by now exists (p :: ps).
  induction s as [|c s (p & ps & Hclean & ->)].
  - exists EmptyString, []. split; [| reflexivity].
    constructor; [reflexivity | constructor].
  - inversion Hclean as [|? ? Hp Hps]; subst.
    destruct (HasPrefix (String c p) old) eqn:Hq.
    * apply HasPrefix_spec in Hq as [r Hr].
      exists EmptyString, (r :: ps). split.
      -- constructor; [reflexivity |]. constructor; [| exact Hps].
         unfold old in Hr. injection Hr as -> ->.
         apply Contains_false_spec. intros (l & r' & Hocc).
         apply Contains_false_spec in Hp. apply Hp.
         exists (old' +:+ l), r'. now rewrite Hocc, !append_assoc.
      -- destruct ps as [|p' ps].
         ++ cbn [Join]. now rewrite Hr.
         ++ change (Join (p :: p' :: ps) old)
              with (p +:+ old +:+ Join (p' :: ps) old).
            change (Join (EmptyString :: r :: p' :: ps) old)
              with (old +:+ r +:+ old +:+ Join (p' :: ps) old).
            change (String c (p +:+ old +:+ Join (p' :: ps) old))
              with (String c p +:+ old +:+ Join (p' :: ps) old).
            now rewrite Hr, append_assoc.
    * exists (String c p), ps. split.
      -- constructor; [| exact Hps].
         rewrite Contains_unfold, Hq. exact Hp.
      -- destruct ps; reflexivity.
Qed.

End Scan.

(** [strings.ReplaceAll] leaves no [old] behind. *)
Lemma ReplaceAll_clean (s old new : string) :
  old <> EmptyString -> new <> EmptyString -> noByteOf old new ->
  Contains (ReplaceAll s old new) old = false.
Proof.
  intros Hold Hnew Hd. destruct old as [|o old']; [contradiction |].
  unfold ReplaceAll. destruct (String.eqb_spec (String o old') new) as [<-|Hne].
  - exfalso. specialize (Hd o). simpl in Hd. rewrite Ascii.eqb_refl in Hd.
    discriminate Hd. reflexivity.
  - now apply replaceFrom_clean.
Qed.

Lemma length_append (a b : string) :
  String.length (a +:+ b) = (String.length a + String.length b)%nat.
Proof. induction a as [|x a IH]; simpl; [reflexivity | now rewrite IH]. Qed.

(** Equal texts behind different fronts have equal fronts. *)
Lemma append_inv_tail (a b t : string) : a +:+ t = b +:+ t -> a = b.
Proof.
  intros Heq.
  assert (Hlen : String.length a = String.length b).
  { apply (f_equal String.length) in Heq.
    rewrite !length_append in Heq. lia. }
  revert b Heq Hlen. induction a as [|x a IH]; intros [|y b] Heq Hlen;
    try discriminate Hlen; [reflexivity |].
  simpl in Heq, Hlen. injection Heq as -> Heq. f_equal. apply IH; [exact Heq | lia].
Qed.

(** [strings.ReplaceAll] leaves a text without [old] as it is. *)
Lemma ReplaceAll_absent (s old new : string) :
  Contains s old = false -> ReplaceAll s old new = s.
Proof.
  intros Hc. unfold ReplaceAll. destruct old as [|o old']; [reflexivity |].
  destruct (String.eqb _ new); [reflexivity |]. now apply replaceFrom_absent.
Qed.

(** [strings.ReplaceAll] on a template cut at its occurrences of [old]. *)
Lemma ReplaceAll_Join (pieces : list string) (o : ascii) (old' new : string) :
  IndexByte old' o = false ->
  Forall (fun p => Contains p (String o old') = false) pieces ->
  ReplaceAll (Join pieces (String o old')) (String o old') new = Join pieces new.
Proof.
  intros Ho Hp. unfold ReplaceAll.
  destruct (String.eqb_spec (String o old') new) as [<-|Hne]; [reflexivity |].
  now apply replaceFrom_Join.
Qed.

End ReplaceFacts.

Module FmtFacts.

Import Strings Fmt Vocabulary StringsFacts ReplaceFacts.

Lemma string_of_uint_digits (d : Decimal.uint) (c : ascii) :
  IndexByte (NilEmpty.string_of_uint d) c = true ->
  IndexByte "0123456789" c = true.
Proof.
  induction d as [|d IH|d IH|d IH|d IH|d IH|d IH|d IH|d IH|d IH|d IH];
    cbn [NilEmpty.string_of_uint]; intros Hc;
    try discriminate Hc;
    apply IndexByte_cons in Hc as [<-|Hc]; solve [reflexivity | auto].
Qed.

(** [%d] prints digits, behind a minus sign at most. *)
Lemma FormatInt_bytes (n : Z) (c : ascii) :
  IndexByte (FormatInt n) c = true -> IndexByte "-0123456789" c = true.
Proof.
  unfold FormatInt, NilZero.string_of_int, NilZero.string_of_uint.
  assert (Hd : forall d, IndexByte (NilEmpty.string_of_uint d) c = true ->
                         IndexByte "-0123456789" c = true).
  { intros d Hc. apply string_of_uint_digits in Hc.
    apply IndexByte_cons. now right. }
  assert (Hz : forall d,
             IndexByte match d with
                       | Decimal.Nil => "0"
                       | _ => NilEmpty.string_of_uint d
                       end c = true ->
             IndexByte "-0123456789" c = true).
  { intros [| | | | | | | | | |]; try apply Hd.
    intros Hc. apply IndexByte_cons in Hc as [<-|Hc]; [reflexivity | discriminate]. }
  destruct (Z.to_int n) as [d|d]; [apply Hz |].
  intros Hc. apply IndexByte_cons in Hc as [<-|Hc]; [reflexivity | exact (Hz d Hc)].
Qed.

(** [%d] prints at least one byte. *)
Lemma FormatInt_nonempty (n : Z) : FormatInt n <> EmptyString.
Proof.
  unfold FormatInt, NilZero.string_of_int, NilZero.string_of_uint.
  destruct (Z.to_int n) as [d|d]; [| discriminate].
  destruct d; discriminate.
Qed.

(** No byte of the placeholder is a byte of a printed integer. *)
Lemma epoch_noByteOf_FormatInt (n : Z) : noByteOf "{epoch}" (FormatInt n).
Proof.
  intros c Hc. destruct (IndexByte (FormatInt n) c) eqn:Hn; [| reflexivity].
  apply FormatInt_bytes in Hn.
  repeat (apply IndexByte_cons in Hc as [<-|Hc]; [discriminate Hn |]).
  discriminate Hc.
Qed.

Lemma Sprintf_d (n : Z) : Sprintf "%d" [ArgInt n] = FormatInt n.
Proof. cbn. apply append_empty_r. Qed.

(** Text without a percent sign is copied, and a closing [%s] prints its
    operand as it is. *)
Lemma Sprintf_text_s (text s : string) :
  IndexByte text "%" = false ->
  Sprintf (text +:+ "%s") [ArgString s] = text +:+ s.
Proof.
  induction text as [|c text IH]; intros Hc.
  - cbn. apply append_empty_r.
  - simpl in Hc. apply orb_false_iff in Hc as [Hc Ht].
    simpl. rewrite Hc. now rewrite IH.
Qed.

Lemma Sprintf_plain_loginPayload (user pass : string) :
  Sprintf "Username=%s&Password=%s" [ArgString user; ArgString pass] =
  "Username=" +:+ user +:+ "&Password=" +:+ pass.
Proof. cbn. now rewrite append_empty_r. Qed.

Lemma Sprintf_mismatch (wanted got : Z) (url : string) :
  Sprintf "status code missmatch. wanted %d got %d for %s"
    [ArgInt wanted; ArgInt got; ArgString url] =
  "status code missmatch. wanted " +:+ FormatInt wanted +:+ " got " +:+
  FormatInt got +:+ " for " +:+ url.
Proof. cbn. now rewrite append_empty_r. Qed.

(** An [int64] in range is not changed by the wrap-around. *)
Lemma wrap64_small (z : Z) : - 2 ^ 63 <= z < 2 ^ 63 -> wrap64 z = z.
Proof. intros Hz. unfold wrap64. rewrite Z.mod_small; lia. Qed.

End FmtFacts.

(* ===================================================================== *)
(** * The program *)
(* ===================================================================== *)

Import Strings Fmt Net Main Vocabulary StringsFacts ReplaceFacts FmtFacts.

(** The library functions are used through their facts from here on. *)
#[local] Arguments Sprintf : simpl never.
#[local] Arguments Contains : simpl never.
#[local] Arguments ReplaceAll : simpl never.
#[local] Arguments FormatInt : simpl never.
#[local] Arguments wrap64 : simpl never.

(** Unfold the monad and the library effects. *)
Ltac run_monad :=
  unfold bind, ret, emit, history, LookupEnv, Now, Printf, ReadAll,
    LoadDefaultAWSConfig, PublishSend, JarSetCookies, readJar, after; simpl.

Section Credentials.

Context {J : Type} `{CookieJar J}.
Variable w : World.

Lemma createLoginPayload_run (st : State J) :
  createLoginPayload w st =
  match Environ w !! "PERSONNR" with
  | None =>
      ((EmptyString, Some (ErrorString "couldn't get PERSONNR from environment")),
       after st [EvLookupEnv "PERSONNR"])
  | Some user =>
      match Environ w !! "PASSWORD" with
      | None =>
          ((EmptyString, Some (ErrorString "couldn't get PASSWORD from environment")),
           after st [EvLookupEnv "PERSONNR"; EvLookupEnv "PASSWORD"])
      | Some pass =>
          (("Username=" +:+ user +:+ "&Password=" +:+ pass, None),
           after st [EvLookupEnv "PERSONNR"; EvLookupEnv "PASSWORD"])
      end
  end.
Proof.
  unfold createLoginPayload. run_monad.
  destruct (Environ w !! "PERSONNR") as [user|]; [| reflexivity].
  run_monad. rewrite <- app_assoc. simpl.
  destruct (Environ w !! "PASSWORD") as [pass|]; [| reflexivity].
  unfold ret. now rewrite Sprintf_plain_loginPayload.
Qed.

(** C2. With [PERSONNR] set to [id] and [PASSWORD] set to [password],
    [createLoginPayload] returns exactly the bytes
    [Username=<id>&Password=<password>] and no error: the two values are
    copied as they are, whatever bytes they hold. *)
Theorem createLoginPayload_exact (st : State J) (id password : string) :
  Environ w !! "PERSONNR" = Some id ->
  Environ w !! "PASSWORD" = Some password ->
  fst (createLoginPayload w st) =
  ("Username=" +:+ id +:+ "&Password=" +:+ password, None).
Proof. intros Hid Hpw. now rewrite createLoginPayload_run, Hid, Hpw. Qed.

End Credentials.

Lemma roundTrips_app (a b : list Event) :
  roundTrips (a ++ b) = roundTrips a ++ roundTrips b.
Proof.
  induction a as [|[] a IH]; simpl; rewrite ?IH; reflexivity.
Qed.

Lemma publishes_app (a b : list Event) :
  publishes (a ++ b) = publishes a ++ publishes b.
Proof.
  induction a as [|[] a IH]; simpl; rewrite ?IH; reflexivity.
Qed.

Lemma configLoads_app (a b : list Event) :
  configLoads (a ++ b) = (configLoads a + configLoads b)%nat.
Proof.
  induction a as [|[] a IH]; simpl; rewrite ?IH; reflexivity.
Qed.

Lemma lookups_app (a b : list Event) :
  lookups (a ++ b) = lookups a ++ lookups b.
Proof.
  induction a as [|[] a IH]; simpl; rewrite ?IH; reflexivity.
Qed.

Lemma after_nil {J : Type} (st : State J) : after st [] = st.
Proof. destruct st. unfold after. simpl. now rewrite app_nil_r. Qed.

Lemma after_after {J : Type} (st : State J) (a b : list Event) :
  after (after st a) b = after st (a ++ b).
Proof. unfold after. simpl. now rewrite app_assoc. Qed.

Section Notify.

Context {J : Type} `{CookieJar J}.
Variable w : World.

(** What [send true] does, step by step. *)
Lemma send_true_run (st : State J) :
  send w true st =
  let looked := [EvLog detectedLine; EvLookupEnv "TOPIC"] in
  match Environ w !! "TOPIC" with
  | None => (Some (missingVariable "TOPIC"), after st looked)
  | Some topic =>
      match LoadDefaultAWSConfigErr w (trace st ++ looked) with
      | Some err =>
          (Some (Errorf "couldn't load AWS config. %s" [ArgString (Error err)]),
           after st (looked ++ [EvLoadAWSConfig]))
      | None =>
          (match PublishErr w (trace st ++ looked ++ [EvLoadAWSConfig])
                   (notification topic) with
           | Some err =>
               Some (Errorf "couldn't publish to sns. %s" [ArgString (Error err)])
           | None => None
           end,
           after st (looked ++ [EvLoadAWSConfig; EvPublish (notification topic)]))
      end
  end.
Proof.
  unfold send. run_monad. rewrite <- !app_assoc. simpl.
  destruct (Environ w !! "TOPIC") as [topic|]; [| reflexivity].
  run_monad. rewrite <- !app_assoc. simpl.
  destruct (LoadDefaultAWSConfigErr w _) as [err|]; [reflexivity |].
  run_monad. rewrite <- !app_assoc. simpl.
  fold (notification topic).
  destruct (PublishErr w _ _); reflexivity.
Qed.

(** C4, as amended.  With the flag false [send] returns [nil] and does
    nothing: the state, and with it the trace of lookups, configuration
    loads and publish calls, is the one it started from.  With the flag true
    it logs, looks [TOPIC] up and
    - fails naming [TOPIC] when it is absent, without loading the AWS
      configuration or publishing;
    - fails when the AWS configuration does not load, without publishing;
    - otherwise makes one publish call, with the fixed subject, the fixed
      message and the topic, and returns its outcome. *)
Theorem send_steps (st : State J) :
  send w false st = (None, st) /\
  (Environ w !! "TOPIC" = None ->
   fst (send w true st) = Some (missingVariable "TOPIC") /\
   lookups (trace (snd (send w true st))) = lookups (trace st) ++ ["TOPIC"] /\
   configLoads (trace (snd (send w true st))) = configLoads (trace st) /\
   publishes (trace (snd (send w true st))) = publishes (trace st)) /\
  (forall topic err,
   Environ w !! "TOPIC" = Some topic ->
   LoadDefaultAWSConfigErr w (trace st ++ [EvLog detectedLine; EvLookupEnv "TOPIC"])
     = Some err ->
   fst (send w true st) =
     Some (ErrorString ("couldn't load AWS config. " +:+ Error err)) /\
   publishes (trace (snd (send w true st))) = publishes (trace st)) /\
  (forall topic,
   Environ w !! "TOPIC" = Some topic ->
   LoadDefaultAWSConfigErr w (trace st ++ [EvLog detectedLine; EvLookupEnv "TOPIC"])
     = None ->
   publishes (trace (snd (send w true st))) =
     publishes (trace st) ++ [notification topic] /\
   lookups (trace (snd (send w true st))) = lookups (trace st) ++ ["TOPIC"] /\
   (fst (send w true st) = None <->
    PublishErr w
      (trace st ++ [EvLog detectedLine; EvLookupEnv "TOPIC"; EvLoadAWSConfig])
      (notification topic) = None)).
Proof.
  split; [reflexivity |]. rewrite send_true_run. cbv zeta.
  split; [| split].
  - intros ->. simpl.
    rewrite lookups_app, configLoads_app, publishes_app. simpl.
    rewrite Nat.add_0_r, app_nil_r. auto.
  - intros topic err -> ->. simpl. rewrite publishes_app. simpl.
    rewrite app_nil_r. split; [| reflexivity].
    unfold Errorf. do 2 f_equal.
    now apply (Sprintf_text_s "couldn't load AWS config. ").
  - intros topic -> ->. simpl. rewrite publishes_app, lookups_app. simpl.
    repeat split; destruct (PublishErr w _ _); easy.
Qed.

End Notify.

Section Transport.

Context {J : Type} `{CookieJar J}.
Variable w : World.

(** One exchange, spelled out. *)
Lemma exchange_run (client : Client) (req : Request) (st : State J) :
  exchange w client req st =
  let sent := outgoing client req st in
  match RoundTrip w (trace st) sent with
  | inl err => (inl err, after st [EvRoundTrip sent])
  | inr reply =>
      (inr (responseOf sent reply),
       {| trace := trace st ++ [EvRoundTrip sent];
          jars := match ReplyCookies reply with
                  | [] => jars st
                  | rc => storeCookies (Jar client) (URL req) rc (jars st)
                  end |})
  end.
Proof.
  unfold exchange, outgoing, jarAt, responseOf. run_monad.
  destruct (RoundTrip w _ _) as [err|reply]; [reflexivity |].
  run_monad. destruct (ReplyCookies reply); reflexivity.
Qed.

(** An exchange sends one request. *)
Lemma exchange_roundTrips (client : Client) (req : Request) (st : State J) :
  roundTrips (trace (snd (exchange w client req st))) =
  roundTrips (trace st) ++ [outgoing client req st].
Proof.
  rewrite exchange_run. cbv zeta.
  destruct (RoundTrip w _ _); simpl; now rewrite roundTrips_app.
Qed.

(** A client that follows no redirect makes one exchange per call; its
    store is the one the exchange leaves. *)
Lemma doLoop_followsNothing (hops : nat) (client : Client) (req : Request)
    (via : list Request) (st : State J) :
  followsNothing client ->
  snd (doLoop w hops client req via st) = snd (exchange w client req st).
Proof.
  intros Hpol. destruct hops; simpl; unfold bind;
    destruct (exchange w client req st) as [[err|resp] st1]; try reflexivity;
    destruct (Redirect w _ _) as [[err|next]|]; try reflexivity;
    specialize (Hpol next (via ++ [RespRequest resp]));
    destruct (CheckRedirect client next _) as [[|msg]|];
    solve [reflexivity | contradiction].
Qed.

(** A client whose policy is [ErrUseLastResponse] makes one exchange and
    returns what it gives, redirect or not, unless the reply is a redirect
    whose [Location] it cannot use. *)
Lemma Do_lastResponse (client : Client) (req : Request) (st : State J) :
  lastResponse client ->
  Do w client req st =
  match exchange w client req st with
  | (inl err, st1) => (inl err, st1)
  | (inr resp, st1) =>
      match Redirect w (RespRequest resp) (replyOf resp) with
      | Some (inl err) => (inl err, st1)
      | _ => (inr resp, st1)
      end
  end.
Proof.
  intros Hpol. unfold Do. destruct (Hops w); simpl; unfold bind;
    destruct (exchange w client req st) as [[err|resp] st1]; try reflexivity;
    destruct (Redirect w _ _) as [[err|next]|]; try reflexivity;
    now rewrite Hpol.
Qed.

Lemma replyOf_responseOf (sent : Request) (reply : Reply) :
  replyOf (responseOf sent reply) = reply.
Proof. now destruct reply. Qed.

(** The same, in terms of the reply. *)
Lemma Do_lastResponse_reply (client : Client) (req : Request) (st : State J)
    (reply : Reply) :
  lastResponse client ->
  RoundTrip w (trace st) (outgoing client req st) = inr reply ->
  usable w (outgoing client req st) reply ->
  fst (Do w client req st) = inr (responseOf (outgoing client req st) reply) /\
  snd (Do w client req st) = snd (exchange w client req st).
Proof.
  intros Hpol Hreply Huse. rewrite (Do_lastResponse _ _ _ Hpol).
  rewrite exchange_run. cbv zeta. rewrite Hreply.
  cbn [RespRequest responseOf]. fold (responseOf (outgoing client req st) reply).
  rewrite replyOf_responseOf.
  destruct (Redirect w _ reply) as [[err|next]|] eqn:Hred; try easy.
  now contradiction (Huse err).
Qed.

(** [sendHTTPRequest] behind [client.Do], spelled out. *)
Lemma sendHTTPRequest_run (client : Client) (req : Request) (code : Z)
    (st : State J) :
  sendHTTPRequest w client req code st =
  match Do w client req st with
  | (inl err, st1) =>
      ((EmptyString,
        Some (ErrorString ("couldn't send http request. " +:+ Error err))), st1)
  | (inr resp, st1) =>
      match Body resp with
      | inl err =>
          ((EmptyString,
            Some (ErrorString ("couldn't read body of response. " +:+ Error err))),
           after st1 [EvReadAll])
      | inr body =>
          if StatusCode resp =? code then
            ((body, None),
             {| trace := trace st1 ++ [EvReadAll];
                jars := storeCookies (Jar client) (URL (RespRequest resp))
                          (RespCookies resp) (jars st1) |})
          else
            ((body,
              Some (statusMismatch code (StatusCode resp) (URL (RespRequest resp)))),
             after st1 [EvReadAll])
      end
  end.
Proof.
  unfold sendHTTPRequest. unfold bind at 1.
  destruct (Do w client req st) as [[err|resp] st1].
  - unfold ret, Errorf.
    now rewrite (Sprintf_text_s "couldn't send http request. ").
  - run_monad. destruct (Body resp) as [err|body].
    + unfold ret, Errorf.
      now rewrite (Sprintf_text_s "couldn't read body of response. ").
    + destruct (StatusCode resp =? code); simpl.
      * reflexivity.
      * unfold ret, Errorf, statusMismatch. now rewrite Sprintf_mismatch.
Qed.

End Transport.

Section Sending.

Context {J : Type} `{CookieJar J}.
Variable w : World.

(** C6. Once [client.Do] has delivered a response, [sendHTTPRequest] reads
    its body whatever the status is: a body that cannot be read is reported
    as such, before any look at the status; and a body that was read is
    returned in full when the status is not the expected one, together with
    an error whose message holds the wanted status, the status received and
    the URL of the request the response answers. *)
Theorem sendHTTPRequest_mismatch (client : Client) (req : Request) (code : Z)
    (st st1 : State J) (resp : Response) :
  Do w client req st = (inr resp, st1) ->
  (forall err, Body resp = inl err ->
     sendHTTPRequest w client req code st =
     ((EmptyString,
       Some (ErrorString ("couldn't read body of response. " +:+ Error err))),
      after st1 [EvReadAll])) /\
  (forall body, Body resp = inr body -> StatusCode resp <> code ->
     let wanted := FormatInt code in
     let got := FormatInt (StatusCode resp) in
     let url := URL (RespRequest resp) in
     let msg := "status code missmatch. wanted " +:+ wanted +:+ " got " +:+
                got +:+ " for " +:+ url in
     sendHTTPRequest w client req code st =
       ((body, Some (ErrorString msg)), after st1 [EvReadAll]) /\
     Contains msg wanted = true /\ Contains msg got = true /\
     Contains msg url = true).
Proof.
  intros HDo. rewrite sendHTTPRequest_run, HDo. split.
  - now intros err ->.
  - intros body -> Hne. cbv zeta.
    apply Z.eqb_neq in Hne. rewrite Hne. split; [reflexivity |].
    repeat split.
    + apply Contains_middle.
    + rewrite <- (append_assoc _ (FormatInt code) _), <- (append_assoc _ " got " _).
      apply Contains_middle.
    + apply Contains_spec.
      exists ("status code missmatch. wanted " +:+ FormatInt code +:+ " got " +:+
              FormatInt (StatusCode resp) +:+ " for "), EmptyString.
      now rewrite append_empty_r, !append_assoc.
Qed.


(** C10, as amended.  When [sendHTTPRequest] returns an error it has set no
    cookie itself: the store is the one [client.Do] left.  With a client
    that follows no redirect, that store is the one before the call when
    the exchange failed or the reply carried no cookie, and otherwise the
    one before the call with the cookies of the reply set by the client
    for the URL of the request. *)
Theorem sendHTTPRequest_failed_store (client : Client) (req : Request)
    (code : Z) (st : State J) :
  snd (fst (sendHTTPRequest w client req code st)) <> None ->
  jars (snd (sendHTTPRequest w client req code st)) =
    jars (snd (Do w client req st)) /\
  (followsNothing client ->
   jars (snd (Do w client req st)) =
     match RoundTrip w (trace st) (outgoing client req st) with
     | inl _ => jars st
     | inr reply =>
         match ReplyCookies reply with
         | [] => jars st
         | rc => storeCookies (Jar client) (URL req) rc (jars st)
         end
     end).
Proof.
  intros Herr. split.
  - rewrite sendHTTPRequest_run in *.
    destruct (Do w client req st) as [[err|resp] st1]; [reflexivity |].
    destruct (Body resp) as [err|body]; [reflexivity |].
    destruct (StatusCode resp =? code); [| reflexivity].
    now contradiction Herr.
  - intros Hpol. unfold Do. rewrite doLoop_followsNothing by exact Hpol.
    rewrite exchange_run. cbv zeta.
    destruct (RoundTrip w _ _); reflexivity.
Qed.

End Sending.

Section Building.

Context {J : Type} `{CookieJar J}.
Variable w : World.

(** Setting headers changes nothing but the headers. *)
Lemma headers_keep (hs : gmap string string) (req : Request) :
  let r := map_fold (HeaderSet w) req hs in
  Method r = Method req /\ URL r = URL req /\
  Payload r = Payload req /\ Sent r = Sent req.
Proof.
  cbv zeta.
  apply (map_fold_weak_ind
           (fun (r : Request) (_ : gmap string string) =>
              Method r = Method req /\ URL r = URL req /\
              Payload r = Payload req /\ Sent r = Sent req)).
  - auto.
  - intros k v m r _ IH. exact IH.
Qed.

(** [createHTTPRequest], spelled out. *)
Lemma createHTTPRequest_run (method url payload : string)
    (hs : gmap string string) (st : State J) :
  createHTTPRequest w method url payload hs st =
  let now := wrap64 (Unix (Clock w (trace st)) * 1000) in
  let url' := ReplaceAll url "{epoch}" (FormatInt now) in
  match NewRequestErr w method url' with
  | Some err =>
      (inl (Errorf "couldn't create request for %s %s. %s"
              [ArgString method; ArgString url'; ArgString (Error err)]),
       after st [EvNow])
  | None =>
      (inr (map_fold (HeaderSet w)
              {| Method := method; URL := url'; Header := ∅;
                 Payload := payload; Sent := [] |} hs),
       after st [EvNow])
  end.
Proof.
  unfold createHTTPRequest, NewRequest. run_monad. rewrite Sprintf_d.
  destruct (NewRequestErr w method _); reflexivity.
Qed.

(** C5. In the request [createHTTPRequest] builds from a template, the URL
    is the template with [{epoch}] replaced by the decimal print of the
    [int64] [time.Now().Unix() * 1000], which is made of digits behind at
    most a minus sign: it holds no [{epoch}], and it is the pieces between
    the placeholders of the template, joined by that print.
    For a clock reading [t] whose seconds times 1000 fit an [int64], the
    print is that of an integer at most [t] in milliseconds and less than
    1000 below it. *)
Theorem createHTTPRequest_epoch (method url payload : string)
    (hs : gmap string string) (st st' : State J) (req : Request) :
  createHTTPRequest w method url payload hs st = (inr req, st') ->
  let t := Clock w (trace st) in
  let stamp := FormatInt (wrap64 (Unix t * 1000)) in
  URL req = ReplaceAll url "{epoch}" stamp /\
  (forall c, IndexByte stamp c = true -> IndexByte "-0123456789" c = true) /\
  Contains (URL req) "{epoch}" = false /\
  (exists pieces,
     Forall (fun p => Contains p "{epoch}" = false) pieces /\
     url = Join pieces "{epoch}" /\ URL req = Join pieces stamp) /\
  (forall pieces,
     Forall (fun p => Contains p "{epoch}" = false) pieces ->
     url = Join pieces "{epoch}" -> URL req = Join pieces stamp) /\
  (validTime t -> - 2 ^ 63 <= Unix t * 1000 < 2 ^ 63 ->
   stamp = FormatInt (Unix t * 1000) /\
   UnixMilli t - 1000 < Unix t * 1000 <= UnixMilli t).
Proof.
  intros Hrun. cbv zeta. rewrite createHTTPRequest_run in Hrun. cbv zeta in Hrun.
  destruct (NewRequestErr w method _); [discriminate |].
  injection Hrun as <- <-.
  destruct (headers_keep hs
              {| Method := method;
                 URL := ReplaceAll url "{epoch}"
                          (FormatInt (wrap64 (Unix (Clock w (trace st)) * 1000)));
                 Header := ∅; Payload := payload; Sent := [] |})
    as (_ & -> & _ & _).
  simpl.
  assert (Hjoin : forall pieces,
             Forall (fun p => Contains p "{epoch}" = false) pieces ->
             url = Join pieces "{epoch}" ->
             ReplaceAll url "{epoch}"
               (FormatInt (wrap64 (Unix (Clock w (trace st)) * 1000))) =
             Join pieces (FormatInt (wrap64 (Unix (Clock w (trace st)) * 1000)))).
  { intros pieces Hclean ->. now apply ReplaceAll_Join. }
  split; [reflexivity |]. split; [apply FormatInt_bytes |].
  split; [| split; [| split]].
  - apply ReplaceAll_clean.
    + discriminate.
    + apply FormatInt_nonempty.
    + apply epoch_noByteOf_FormatInt.
  - destruct (Join_cut "{" "epoch}" url) as (pieces & Hclean & Hurl).
    exists pieces. auto.
  - exact Hjoin.
  - intros Ht Hfit. rewrite wrap64_small by exact Hfit.
    split; [reflexivity |].
    unfold validTime in Ht. unfold UnixMilli, Unix.
    assert (0 <= wallNsec (Clock w (trace st)) / 1000000 < 1000).
    { split; [apply Z.div_pos; lia | apply Z.div_lt_upper_bound; lia]. }
    lia.
Qed.

(** C9. [createHTTPClient] fails exactly when [cookiejar.New] does, with its
    error wrapped.  Otherwise it returns a client whose jar is a new object
    of the store, holding the jar [cookiejar.New] built, which has no cookie
    for any URL; whose timeout is the given milliseconds as a duration; and
    whose redirect policy answers [ErrUseLastResponse] to every redirect.
    With this client [client.Do] sends one request and follows nothing: the
    reply to that request, redirect or not, is the response the caller gets
    (a redirect whose [Location] the client cannot use apart). *)
Theorem createHTTPClient_session (timeout : Z) (st : State J) :
  (forall err, cookiejarNewErr w = Some err ->
     createHTTPClient w timeout st =
     (inl (ErrorString ("couldn't create cookie jar. " +:+ Error err)), st)) /\
  (cookiejarNewErr w = None ->
   exists client,
     createHTTPClient w timeout st = (inr client, withJar st) /\
     Jar client = length (jars st) /\
     jars (withJar st) !! Jar client = Some NewJar /\
     (JarKeeps J ->
      forall u, Cookies (jarAt (Jar client) (jars (withJar st))) u = []) /\
     Timeout client = wrap64 (1000000 * timeout) /\
     lastResponse client /\
     forall req st1,
       roundTrips (trace (snd (Do w client req st1))) =
         roundTrips (trace st1) ++ [outgoing client req st1] /\
       forall reply,
         RoundTrip w (trace st1) (outgoing client req st1) = inr reply ->
         usable w (outgoing client req st1) reply ->
         fst (Do w client req st1) = inr (responseOf (outgoing client req st1) reply)).
Proof.
  unfold createHTTPClient, cookiejarNew, bind. split.
  - intros err ->. unfold ret, Errorf.
    now rewrite (Sprintf_text_s "couldn't create cookie jar. ").
  - intros ->. eexists. split; [reflexivity |]. simpl.
    assert (Hjar : (jars st ++ [NewJar]) !! length (jars st) = Some NewJar).
    { rewrite lookup_app_r by lia. now rewrite Nat.sub_diag. }
    split; [reflexivity |]. split; [exact Hjar |]. split.
    { intros Hkeeps u. unfold jarAt. simpl. rewrite Hjar. apply jar_new_empty. }
    split; [reflexivity |].
    assert (Hpol : lastResponse
                     {| Jar := length (jars st);
                        Timeout := wrap64 (1000000 * timeout);
                        CheckRedirect := fun _ _ => Some ErrUseLastResponse |})
      by (intros req via; reflexivity).
    split; [exact Hpol |].
    intros req st1. split.
    + unfold Do. rewrite doLoop_followsNothing; [apply exchange_roundTrips |].
      intros r via. now rewrite Hpol.
    + intros reply Hreply Huse.
      now apply (Do_lastResponse_reply w _ req st1 reply Hpol Hreply Huse).
Qed.

End Building.

Section Workflow.

Context {J : Type} `{CookieJar J}.
Variable w : World.

(** [login], step by step. *)
Lemma login_run (client : Client) (hs : gmap string string) (st : State J) :
  login w client hs st =
  match createLoginPayload w st with
  | ((_, Some err), st1) => (Some err, st1)
  | ((payload, None), st1) =>
      match createHTTPRequest w "POST" loginURL payload hs st1 with
      | (inl err, st2) => (Some err, st2)
      | (inr req, st2) =>
          (snd (fst (sendHTTPRequest w client req 302 st2)),
           snd (sendHTTPRequest w client req 302 st2))
      end
  end.
Proof.
  unfold login. unfold bind at 1.
  destruct (createLoginPayload w st) as [[payload [err|]] st1]; [reflexivity |].
  simpl. unfold bind at 1.
  destruct (createHTTPRequest w "POST" loginURL payload hs st1) as [[err|req] st2];
    [reflexivity |].
  unfold bind.
  destruct (sendHTTPRequest w client req 302 st2) as [[body [err|]] st3];
    reflexivity.
Qed.

(** [forrad], step by step. *)
Lemma forrad_run (client : Client) (hs : gmap string string) (st : State J) :
  forrad w client hs st =
  match createHTTPRequest w "GET" forradURL EmptyString hs st with
  | (inl err, st1) => ((false, Some err), st1)
  | (inr req, st1) =>
      match sendHTTPRequest w client req 200 st1 with
      | ((_, Some err), st2) => ((false, Some err), st2)
      | ((body, None), st2) => ((negb (Contains body searchString), None), st2)
      end
  end.
Proof.
  unfold forrad. unfold bind at 1.
  destruct (createHTTPRequest w "GET" forradURL EmptyString hs st) as [[err|req] st1];
    [reflexivity |].
  unfold bind.
  destruct (sendHTTPRequest w client req 200 st1) as [[body [err|]] st2];
    reflexivity.
Qed.

(** [handler], step by step. *)
Lemma handler_run (st : State J) :
  handler w st =
  match createHTTPClient w 10000 st with
  | (inl err, st0) => (Some err, st0)
  | (inr client, st0) =>
      match login w client headers st0 with
      | (Some err, st1) => (Some err, st1)
      | (None, st1) =>
          match forrad w client headers st1 with
          | ((_, Some err), st2) => (Some err, st2)
          | ((new, None), st2) => send w new st2
          end
      end
  end.
Proof.
  unfold handler. unfold bind at 1.
  destruct (createHTTPClient w 10000 st) as [[err|client] st0]; [reflexivity |].
  unfold bind at 1.
  destruct (login w client headers st0) as [[err|] st1]; [reflexivity |].
  unfold bind.
  destruct (forrad w client headers st1) as [[new [err|]] st2]; reflexivity.
Qed.


End Workflow.

Section LoginFlow.

Context {J : Type} `{CookieJar J}.
Variable w : World.

Lemma loginURL_plain (stamp : string) : ReplaceAll loginURL "{epoch}" stamp = loginURL.
Proof. apply ReplaceAll_absent. reflexivity. Qed.

Lemma loginRequest_URL (payload : string) : URL (loginRequest w payload) = loginURL.
Proof.
  unfold loginRequest.
  now destruct (headers_keep w headers
                  {| Method := "POST"; URL := loginURL; Header := ∅;
                     Payload := payload; Sent := [] |}) as (_ & -> & _).
Qed.

Lemma sessionClient_lastResponse (st : State J) : lastResponse (sessionClient st).
Proof. intros req via. reflexivity. Qed.

Lemma createHTTPClient_ok (st : State J) :
  cookiejarNewErr w = None ->
  createHTTPClient w 10000 st = (inr (sessionClient st), withJar st).
Proof.
  intros Hnew. unfold createHTTPClient, cookiejarNew, bind. now rewrite Hnew.
Qed.

(** [login] with both credentials and a request the library accepts: one
    exchange, and the verdict on its reply. *)
Lemma login_exchange (client : Client) (st : State J) (id password : string) :
  lastResponse client ->
  Environ w !! "PERSONNR" = Some id ->
  Environ w !! "PASSWORD" = Some password ->
  NewRequestErr w "POST" loginURL = None ->
  let payload := "Username=" +:+ id +:+ "&Password=" +:+ password in
  let st0 := after st [EvLookupEnv "PERSONNR"; EvLookupEnv "PASSWORD"; EvNow] in
  login w client headers st =
  (snd (fst (sendHTTPRequest w client (loginRequest w payload) 302 st0)),
   snd (sendHTTPRequest w client (loginRequest w payload) 302 st0)).
Proof.
  intros Hpol Hid Hpw Hreq. cbv zeta.
  rewrite login_run, createLoginPayload_run, Hid, Hpw.
  rewrite createHTTPRequest_run. cbv zeta.
  rewrite loginURL_plain, Hreq, after_after. reflexivity.
Qed.

(** C3. Take an invocation in which the jar is created, both credentials
    are set, the login request is accepted by the library, and the login
    endpoint answers it with a reply whose body is read (and whose
    [Location], if it is a redirect, the client can use).  Then [login]
    returns [nil] exactly when the status of the reply is 302; and for any
    other status [handler] returns the status mismatch error, in the state
    in which [login] ended: the only request that went out is the login
    request, and none to the availability endpoint.  Whatever makes [login]
    fail, [handler] returns its error in the state [login] ended in. *)
Theorem login_wants_302 (st : State J) (id password body : string)
    (reply : Reply) :
  cookiejarNewErr w = None ->
  Environ w !! "PERSONNR" = Some id ->
  Environ w !! "PASSWORD" = Some password ->
  NewRequestErr w "POST" loginURL = None ->
  let client := sessionClient st in
  let payload := "Username=" +:+ id +:+ "&Password=" +:+ password in
  let st0 := after (withJar st)
               [EvLookupEnv "PERSONNR"; EvLookupEnv "PASSWORD"; EvNow] in
  let post := outgoing client (loginRequest w payload) st0 in
  RoundTrip w (trace st0) post = inr reply ->
  usable w post reply ->
  ReplyBody reply = inr body ->
  (fst (login w client headers (withJar st)) = None <-> ReplyStatus reply = 302) /\
  (ReplyStatus reply <> 302 ->
   fst (handler w st) = Some (statusMismatch 302 (ReplyStatus reply) loginURL) /\
   snd (handler w st) = snd (login w client headers (withJar st)) /\
   roundTrips (trace (snd (handler w st))) = roundTrips (trace st) ++ [post]) /\
  (forall err, fst (login w client headers (withJar st)) = Some err ->
   handler w st = (Some err, snd (login w client headers (withJar st)))).
Proof.
  intros Hnew Hid Hpw Hreq. cbv zeta. intros Hreply Huse Hbody.
  rewrite handler_run, (createHTTPClient_ok st Hnew).
  assert (Hstop : forall err,
             fst (login w (sessionClient st) headers (withJar st)) = Some err ->
             match login w (sessionClient st) headers (withJar st) with
             | (Some err, st1) => (Some err, st1)
             | (None, st1) =>
                 match forrad w (sessionClient st) headers st1 with
                 | (_, Some err, st2) => (Some err, st2)
                 | (new, None, st2) => send w new st2
                 end
             end = (Some err, snd (login w (sessionClient st) headers (withJar st)))).
  { intros err. destruct (login w _ headers _) as [[e|] st1]; simpl; congruence. }
  split; [| split; [| exact Hstop]].
  - rewrite (login_exchange (sessionClient st) (withJar st) id password
               (sessionClient_lastResponse st) Hid Hpw Hreq).
    cbv zeta. rewrite sendHTTPRequest_run.
    destruct (Do_lastResponse_reply w _ _ _ reply
                (sessionClient_lastResponse st) Hreply Huse) as [Hfst Hsnd].
    destruct (Do w _ _ _) as [r st1]. simpl in Hfst. subst r.
    cbn [Body responseOf StatusCode]. rewrite Hbody.
    destruct (Z.eqb_spec (ReplyStatus reply) 302) as [Heq|Hne]; simpl.
    + now split.
    + split; [discriminate | contradiction].
  - intros Hne.
    assert (Hlogin : login w (sessionClient st) headers (withJar st) =
                     (Some (statusMismatch 302 (ReplyStatus reply) loginURL),
                      after (snd (exchange w (sessionClient st)
                                    (loginRequest w ("Username=" +:+ id +:+
                                                     "&Password=" +:+ password))
                                    (after (withJar st)
                                       [EvLookupEnv "PERSONNR";
                                        EvLookupEnv "PASSWORD"; EvNow])))
                        [EvReadAll])).
    { rewrite (login_exchange (sessionClient st) (withJar st) id password
                 (sessionClient_lastResponse st) Hid Hpw Hreq).
      cbv zeta. rewrite sendHTTPRequest_run.
      destruct (Do_lastResponse_reply w _ _ _ reply
                  (sessionClient_lastResponse st) Hreply Huse) as [Hfst Hsnd].
      destruct (Do w _ _ _) as [r st1]. simpl in Hfst, Hsnd. subst r st1.
      cbn [Body responseOf StatusCode RespRequest]. rewrite Hbody.
      apply Z.eqb_neq in Hne. rewrite Hne. cbn [fst snd].
      unfold outgoing. cbn [URL AddCookies]. now rewrite loginRequest_URL. }
    rewrite Hlogin. cbn [fst snd]. split; [reflexivity |]. split; [reflexivity |].
    unfold after at 1. cbn [trace]. rewrite roundTrips_app, exchange_roundTrips.
    unfold after, withJar. cbn [trace]. rewrite !roundTrips_app. simpl.
    now rewrite !app_nil_r.
Qed.

(** C8. [login] without [PERSONNR], or with it and without [PASSWORD], and
    [send true] without [TOPIC], fail with the error of the missing
    variable; the message holds its name, and different names give
    different errors.  No request goes out on the way, nothing is
    published, and in the case of [TOPIC] the AWS configuration is not
    loaded. *)
Theorem missing_variable_fails (client : Client) (hs : gmap string string)
    (st : State J) :
  (Environ w !! "PERSONNR" = None ->
   fst (login w client hs st) = Some (missingVariable "PERSONNR") /\
   roundTrips (trace (snd (login w client hs st))) = roundTrips (trace st) /\
   jars (snd (login w client hs st)) = jars st) /\
  (forall id, Environ w !! "PERSONNR" = Some id ->
   Environ w !! "PASSWORD" = None ->
   fst (login w client hs st) = Some (missingVariable "PASSWORD") /\
   roundTrips (trace (snd (login w client hs st))) = roundTrips (trace st) /\
   jars (snd (login w client hs st)) = jars st) /\
  (Environ w !! "TOPIC" = None ->
   fst (send w true st) = Some (missingVariable "TOPIC") /\
   publishes (trace (snd (send w true st))) = publishes (trace st) /\
   configLoads (trace (snd (send w true st))) = configLoads (trace st) /\
   roundTrips (trace (snd (send w true st))) = roundTrips (trace st)) /\
  (forall name, Contains (Error (missingVariable name)) name = true) /\
  (forall name name', missingVariable name = missingVariable name' -> name = name').
Proof.
  split; [| split; [| split; [| split]]].
  - intros Hid. rewrite login_run, createLoginPayload_run, Hid. simpl.
    rewrite roundTrips_app. simpl. now rewrite app_nil_r.
  - intros id Hid Hpw. rewrite login_run, createLoginPayload_run, Hid, Hpw. simpl.
    rewrite roundTrips_app. simpl. now rewrite app_nil_r.
  - intros Htopic. rewrite send_true_run. cbv zeta. rewrite Htopic. simpl.
    rewrite publishes_app, configLoads_app, roundTrips_app. simpl.
    now rewrite !app_nil_r, Nat.add_0_r.
  - intros name. apply Contains_middle.
  - intros name name' Heq. unfold missingVariable in Heq.
    injection Heq as Heq. now apply append_inv_tail in Heq.
Qed.

End LoginFlow.

(* ===================================================================== *)
(** * The program in the example worlds *)
(* ===================================================================== *)

Module Runs.

Import Fixture.

(** The example jar hands out what it stores. *)
#[global] Instance ListJar_keeps : JarKeeps ListJar.
Proof.
  split.
  - reflexivity.
  - intros j u cs c Hc. cbn [Cookies SetCookies ListJar_CookieJar].
    apply list_elem_of_fmap. exists (hostOf u, c). split; [reflexivity |].
    apply list_elem_of_filter. split; [apply String.eqb_refl |].
    apply elem_of_app. left.
    apply list_elem_of_fmap. now exists c.
Qed.

(** [createHTTPClient] in the start state gives the session of the
    examples. *)
Example createHTTPClient_start :
  createHTTPClient unitsFree 10000 start = (inr client, session).
Proof. reflexivity. Qed.

(** Scenario A of the specification: the login answers 302 with the cookie
    [X=1], the widget answers 200 without the marker: the invocation
    succeeds, the second request carries the cookie, and the notification is
    published. *)
Example scenario_units_free :
  fst (handler unitsFree start) = None /\
  map Sent (roundTrips (trace (snd (handler unitsFree start)))) =
    [[]; [sessionCookie]] /\
  publishes (trace (snd (handler unitsFree start))) =
    [notification "arn:aws:sns:eu-north-1:000000000000:forrad"].
Proof. vm_compute. auto. Qed.

(** Scenario B: the widget answers with the marker: the invocation succeeds
    and nothing is published. *)
Example scenario_nothing_free :
  fst (handler nothingFree start) = None /\
  publishes (trace (snd (handler nothingFree start))) = [].
Proof. vm_compute. auto. Qed.

(** Scenario C: the login answers 200: the invocation fails and one request
    went out. *)
Example scenario_rejected :
  fst (handler rejected start) = Some (statusMismatch 302 200 loginURL) /\
  map Method (roundTrips (trace (snd (handler rejected start)))) = ["POST"].
Proof. vm_compute. auto. Qed.

(** The marker is matched byte for byte: its lower-case spelling is not the
    marker. *)
Example marker_case_sensitive :
  Contains "sökningen gav inga träffar" searchString = false /\
  Contains "Sökningen gav inga träffar" searchString = true.
Proof. vm_compute. auto. Qed.

End Runs.

(* ===================================================================== *)
(** * The statements at work in the example worlds *)
(* ===================================================================== *)

Import Fixture.


(** The payload for credentials that hold [&] and [%]. *)
Lemma createLoginPayload_exact_witness :
  fst (createLoginPayload unitsFree start) = (payload, None).
Proof.
  exact (createLoginPayload_exact unitsFree start "19700101-0000" "p&ss%20word"
           eq_refl eq_refl).
Defined.

(** A login answered with 200 ends the invocation after one request. *)
Lemma login_wants_302_witness :
  fst (handler rejected start) = Some (statusMismatch 302 200 loginURL) /\
  roundTrips (trace (snd (handler rejected start))) = [post].
Proof.
  assert (Huse : forall sent, usable rejected sent loginRejected)
    by (intros sent err; discriminate).
  pose proof (login_wants_302 rejected start "19700101-0000" "p&ss%20word"
                "<html>Logga in</html>" loginRejected
                eq_refl eq_refl eq_refl eq_refl eq_refl (Huse _) eq_refl)
    as (_ & Hfail & _).
  destruct Hfail as (Herr & _ & Htrips); [discriminate |].
  split; [exact Herr | exact Htrips].
Defined.

(** C4, counterexample.  With the flag true and [TOPIC] set, [send] does not
    publish when the AWS configuration fails to load. *)
Lemma send_topic_set_nothing_published :
  Environ noAWS !! "TOPIC" = Some "arn:aws:sns:eu-north-1:000000000000:forrad" /\
  fst (send noAWS true session) =
    Some (ErrorString "couldn't load AWS config. failed to load shared config") /\
  publishes (trace (snd (send noAWS true session))) = [].
Proof. vm_compute. auto. Qed.

(** [send] in a world whose AWS configuration loads, and in one where it
    does not. *)
Lemma send_steps_witness :
  publishes (trace (snd (send unitsFree true session))) =
    [notification "arn:aws:sns:eu-north-1:000000000000:forrad"] /\
  fst (send unitsFree true session) = None /\
  publishes (trace (snd (send noAWS true session))) = [].
Proof.
  destruct (send_steps unitsFree session) as (_ & _ & _ & Hpub).
  destruct (Hpub "arn:aws:sns:eu-north-1:000000000000:forrad" eq_refl eq_refl)
    as (Hp & _ & Hres).
  destruct (send_steps noAWS session) as (_ & _ & Hcfg & _).
  destruct (Hcfg "arn:aws:sns:eu-north-1:000000000000:forrad"
              (ErrorString "failed to load shared config") eq_refl eq_refl)
    as (_ & Hnone).
  split; [exact Hp |]. split; [| exact Hnone].
  apply Hres. reflexivity.
Defined.

(** The widget request of the examples: both placeholders replaced. *)
Lemma createHTTPRequest_epoch_witness :
  exists req st',
    createHTTPRequest unitsFree "GET" forradURL EmptyString headers session
      = (inr req, st') /\
    URL req =
      "https://www.stockholmshem.se/widgets/?callback=jQuery17105048823634686723_1595851200000&widgets%5B%5D=alert&widgets%5B%5D=objektlista%40forrad&_=1595851200000" /\
    Contains (URL req) "{epoch}" = false.
Proof.
  eexists _, _. split; [reflexivity |].
  pose proof (createHTTPRequest_epoch unitsFree "GET" forradURL EmptyString
                headers session _ _ eq_refl) as (Hurl & _ & Hclean & _).
  split; [exact Hurl | exact Hclean].
Defined.

(** The rejected login: the body comes back with the mismatch error. *)
Lemma sendHTTPRequest_mismatch_witness :
  fst (sendHTTPRequest rejected client post 302 session) =
    ("<html>Logga in</html>", Some (statusMismatch 302 200 loginURL)).
Proof.
  pose proof (sendHTTPRequest_mismatch rejected client post 302 session _ _
                eq_refl) as [_ Hbody].
  destruct (Hbody "<html>Logga in</html>" eq_refl) as [Hrun _]; [discriminate |].
  exact (f_equal fst Hrun).
Defined.


(** C10, counterexample.  The login reply of status 200 carries a cookie:
    [sendHTTPRequest] returns the mismatch error, and the jar, empty before
    the call, holds the cookie after it. *)
Lemma rejected_login_changes_jar :
  snd (fst (sendHTTPRequest rejected client post 302 session)) =
    Some (statusMismatch 302 200 loginURL) /\
  jars session = [[]] /\
  jars (snd (sendHTTPRequest rejected client post 302 session)) =
    [[("www.stockholmshem.se", sessionCookie)]].
Proof. vm_compute. auto. Qed.

(** The rejected login: the store after the failed call is the one
    [client.Do] left. *)
Lemma sendHTTPRequest_failed_store_witness :
  jars (snd (sendHTTPRequest rejected client post 302 session)) =
  jars (snd (Do rejected client post session)).
Proof.
  refine (proj1 (sendHTTPRequest_failed_store rejected client post 302 session _)).
  discriminate.
Defined.

(** The three variables, each missing in turn. *)
Lemma missing_variable_fails_witness :
  fst (login (world (delete "PERSONNR" fullEnv) loginOK (widget unitsText) None)
         client headers session) = Some (missingVariable "PERSONNR") /\
  fst (login (world (delete "PASSWORD" fullEnv) loginOK (widget unitsText) None)
         client headers session) = Some (missingVariable "PASSWORD") /\
  fst (send (world (delete "TOPIC" fullEnv) loginOK (widget unitsText) None)
         true session) = Some (missingVariable "TOPIC").
Proof.
  split; [| split].
  - exact (proj1 (proj1 (missing_variable_fails
                           (world (delete "PERSONNR" fullEnv) loginOK
                              (widget unitsText) None)
                           client headers session) eq_refl)).
  - exact (proj1 (proj1 (proj2 (missing_variable_fails
                                  (world (delete "PASSWORD" fullEnv) loginOK
                                     (widget unitsText) None)
                                  client headers session))
                    "19700101-0000" eq_refl eq_refl)).
  - exact (proj1 (proj1 (proj2 (proj2 (missing_variable_fails
                                         (world (delete "TOPIC" fullEnv) loginOK
                                            (widget unitsText) None)
                                         client headers session))) eq_refl)).
Defined.

(** The client of the examples takes the 302 of the login as the
    response. *)
Lemma createHTTPClient_session_witness :
  exists c,
    createHTTPClient unitsFree 10000 start = (inr c, session) /\
    fst (Do unitsFree c post session) = inr (responseOf post loginOK).
Proof.
  destruct (proj2 (createHTTPClient_session unitsFree 10000 start) eq_refl)
    as (c & Hrun & HJar & _ & _ & _ & _ & HDo).
  exists c. split; [exact Hrun |].
  destruct (HDo post session) as (_ & Hresp).
  rewrite (Hresp loginOK eq_refl).
  - unfold outgoing. rewrite HJar. reflexivity.
  - intros err. discriminate.
Defined.

(* ===================================================================== *)
(** * Further properties of the steps *)
(* ===================================================================== *)

Import Frames.

Section Requests.

Context {J : Type} `{CookieJar J}.
Variable w : World.

Lemma Sprintf_rejected (method url msg : string) :
  Sprintf "couldn't create request for %s %s. %s"
    [ArgString method; ArgString url; ArgString msg] =
  "couldn't create request for " +:+ method +:+ " " +:+ url +:+ ". " +:+ msg.
Proof.
  cbv [Sprintf formatVerb extraArgs Ascii.eqb Bool.eqb orb].
  now rewrite append_empty_r.
Qed.

(** X1. The request [http.NewRequest] rejects: [createHTTPRequest] returns the
    error that names the method, the URL with the stamp already in place,
    and the library's reason; it has read the clock once and done nothing
    else. *)
Theorem createHTTPRequest_rejected (method url payload : string)
    (hs : gmap string string) (st : State J) (err : error) :
  let url' := ReplaceAll url "{epoch}"
                (FormatInt (wrap64 (Unix (Clock w (trace st)) * 1000))) in
  NewRequestErr w method url' = Some err ->
  createHTTPRequest w method url payload hs st =
  (inl (ErrorString ("couldn't create request for " +:+ method +:+ " " +:+
                     url' +:+ ". " +:+ Error err)),
   after st [EvNow]).
Proof.
  cbv zeta. intros Hrej. rewrite createHTTPRequest_run. cbv zeta.
  rewrite Hrej. unfold Errorf. now rewrite Sprintf_rejected.
Qed.


(** X3. A template without the placeholder is the URL of the request, whatever
    the clock says. *)
Theorem createHTTPRequest_plain (method url payload : string)
    (hs : gmap string string) (st st' : State J) (req : Request) :
  Contains url "{epoch}" = false ->
  createHTTPRequest w method url payload hs st = (inr req, st') ->
  URL req = url.
Proof.
  intros Hplain Hrun. rewrite createHTTPRequest_run in Hrun. cbv zeta in Hrun.
  destruct (NewRequestErr w method _); [discriminate |].
  injection Hrun as <- <-.
  destruct (headers_keep w hs
              {| Method := method;
                 URL := ReplaceAll url "{epoch}"
                          (FormatInt (wrap64 (Unix (Clock w (trace st)) * 1000)));
                 Header := ∅; Payload := payload; Sent := [] |})
    as (_ & -> & _).
  now apply ReplaceAll_absent.
Qed.

End Requests.

Section Payloads.

Context {J : Type} `{CookieJar J}.

Lemma grows_after_events (P : Event -> bool) (st : State J) (evs : list Event) :
  forallb P evs = true -> grows P st (after st evs).
Proof. intros HP. now exists evs. Qed.

(** Texts without [&] in front of an [&] are told apart by it. *)
Lemma split_at_ampersand (a a' r r' : string) :
  IndexByte a "&" = false -> IndexByte a' "&" = false ->
  a +:+ String "&" r = a' +:+ String "&" r' -> a = a' /\ r = r'.
Proof.
  revert a'. induction a as [|c a IH]; intros [|c' a'] Ha Ha' Heq.
  - injection Heq as ->. auto.
  - simpl in Heq, Ha'. injection Heq as <- _.
    rewrite Ascii.eqb_refl in Ha'. discriminate.
  - simpl in Heq, Ha. injection Heq as -> _.
    rewrite Ascii.eqb_refl in Ha. discriminate.
  - simpl in Heq, Ha, Ha'. injection Heq as -> Heq.
    apply orb_false_iff in Ha as [_ Ha]. apply orb_false_iff in Ha' as [_ Ha'].
    destruct (IH a' Ha Ha' Heq) as [-> ->]. auto.
Qed.

Lemma createLoginPayload_grows (w : World) (st : State J) :
  grows fetchEvent st (snd (createLoginPayload w st)).
Proof.
  rewrite createLoginPayload_run.
  destruct (Environ w !! "PERSONNR") as [user|];
    [destruct (Environ w !! "PASSWORD") as [pass|] |];
    now apply grows_after_events.
Qed.

(** X4. The credentials are read in order and only as far as needed:
    [PASSWORD] is looked up only when [PERSONNR] is set, so that with both
    missing the error names [PERSONNR]; nothing but these lookups happens. *)
Theorem createLoginPayload_lookups (w : World) (st : State J) :
  lookups (trace (snd (createLoginPayload w st))) =
    lookups (trace st) ++
    match Environ w !! "PERSONNR" with
    | Some _ => ["PERSONNR"; "PASSWORD"]
    | None => ["PERSONNR"]
    end /\
  (Environ w !! "PERSONNR" = None ->
   fst (createLoginPayload w st) = (EmptyString, Some (missingVariable "PERSONNR"))) /\
  grows fetchEvent st (snd (createLoginPayload w st)) /\
  roundTrips (trace (snd (createLoginPayload w st))) = roundTrips (trace st) /\
  jars (snd (createLoginPayload w st)) = jars st.
Proof.
  rewrite createLoginPayload_run.
  destruct (Environ w !! "PERSONNR") as [user|];
    [destruct (Environ w !! "PASSWORD") as [pass|] |];
    cbn [fst snd after trace jars]; rewrite lookups_app, roundTrips_app;
    cbn [lookups roundTrips]; rewrite app_nil_r.
  - split; [reflexivity |]. split; [discriminate |].
    split; [| split; reflexivity].
    exists [EvLookupEnv "PERSONNR"; EvLookupEnv "PASSWORD"]. now split.
  - split; [reflexivity |]. split; [discriminate |].
    split; [| split; reflexivity].
    exists [EvLookupEnv "PERSONNR"; EvLookupEnv "PASSWORD"]. now split.
  - split; [reflexivity |]. split; [reflexivity |].
    split; [| split; reflexivity].
    exists [EvLookupEnv "PERSONNR"]. now split.
Qed.

(** X5. Credentials whose identifier holds no [&] are told apart by the
    payload: two environments that give the same payload give the same
    identifier and the same password. *)
Theorem loginPayload_unambiguous (w w' : World) (st st' : State J)
    (id password id' password' : string) :
  Environ w !! "PERSONNR" = Some id ->
  Environ w !! "PASSWORD" = Some password ->
  Environ w' !! "PERSONNR" = Some id' ->
  Environ w' !! "PASSWORD" = Some password' ->
  IndexByte id "&" = false -> IndexByte id' "&" = false ->
  fst (createLoginPayload w st) = fst (createLoginPayload w' st') ->
  id = id' /\ password = password'.
Proof.
  intros Hid Hpw Hid' Hpw' Hamp Hamp' Heq.
  rewrite !createLoginPayload_run, Hid, Hpw, Hid', Hpw' in Heq.
  cbn [fst] in Heq. injection Heq as Heq.
  apply split_at_ampersand in Heq as [-> Heq]; [| assumption | assumption].
  split; [reflexivity |]. injection Heq as Heq. exact Heq.
Qed.

(** An identifier with an [&] can pass for another pair of credentials. *)
Example loginPayload_ambiguous :
  Sprintf "Username=%s&Password=%s" [ArgString "a&Password=b"; ArgString "c"] =
  Sprintf "Username=%s&Password=%s" [ArgString "a"; ArgString "b&Password=c"].
Proof. vm_compute. reflexivity. Qed.

End Payloads.

Section Frame.

Context {J : Type} `{CookieJar J}.
Variable w : World.

Lemma grows_refl (P : Event -> bool) (st : State J) : grows P st st.
Proof. exists []. now rewrite app_nil_r. Qed.

Lemma grows_trans (P : Event -> bool) (a b c : State J) :
  grows P a b -> grows P b c -> grows P a c.
Proof.
  intros (e1 & H1 & P1) (e2 & H2 & P2). exists (e1 ++ e2). split.
  - now rewrite H2, H1, app_assoc.
  - rewrite forallb_app. now rewrite P1, P2.
Qed.

Lemma grows_after (P : Event -> bool) (st : State J) (evs : list Event) :
  forallb P evs = true -> grows P st (after st evs).
Proof. intros HP. now exists evs. Qed.

(** Calls of the scraping steps publish nothing, load no configuration and
    log nothing. *)
Lemma grows_fetch_quiet (st st' : State J) :
  grows fetchEvent st st' ->
  publishes (trace st') = publishes (trace st) /\
  configLoads (trace st') = configLoads (trace st).
Proof.
  intros (evs & -> & Hq). rewrite publishes_app, configLoads_app.
  assert (Hnone : publishes evs = [] /\ configLoads evs = O).
  { induction evs as [|[] evs IH]; simpl in *; try discriminate; auto. }
  destruct Hnone as [-> ->]. now rewrite app_nil_r, Nat.add_0_r.
Qed.

Lemma grows_mono (P Q : Event -> bool) (st st' : State J) :
  (forall e, P e = true -> Q e = true) -> grows P st st' -> grows Q st st'.
Proof.
  intros HPQ (evs & Htr & HP). exists evs. split; [exact Htr |].
  apply forallb_forall. intros e He.
  apply HPQ. now apply (proj1 (forallb_forall P evs) HP).
Qed.

Lemma net_is_fetch (e : Event) : netEvent e = true -> fetchEvent e = true.
Proof. now destruct e. Qed.

(** Clock and network calls look nothing up in the environment. *)
Lemma grows_net_lookups (st st' : State J) :
  grows netEvent st st' -> lookups (trace st') = lookups (trace st).
Proof.
  intros (evs & -> & Hq). rewrite lookups_app.
  assert (Hnone : lookups evs = []).
  { induction evs as [|[] evs IH]; simpl in *; try discriminate; auto. }
  now rewrite Hnone, app_nil_r.
Qed.

Lemma exchange_trace (client : Client) (req : Request) (st : State J) :
  trace (snd (exchange w client req st)) =
  trace st ++ [EvRoundTrip (outgoing client req st)].
Proof. rewrite exchange_run. cbv zeta. now destruct (RoundTrip w _ _). Qed.

Lemma doLoop_grows (hops : nat) (client : Client) (req : Request)
    (via : list Request) (st : State J) :
  grows netEvent st (snd (doLoop w hops client req via st)).
Proof.
  revert req via st. induction hops as [|hops IH]; intros req via st;
    pose proof (exchange_trace client req st) as Htr;
    simpl; unfold bind;
    destruct (exchange w client req st) as [[err|resp] st1]; simpl in Htr;
    assert (Hone : grows netEvent st st1)
      by (eexists; split; [exact Htr | reflexivity]);
    try exact Hone;
    destruct (Redirect w _ _) as [[err|next]|]; try exact Hone;
    destruct (CheckRedirect client next _) as [[|msg]|]; try exact Hone.
  eapply grows_trans; [exact Hone | apply IH].
Qed.

(** [sendHTTPRequest] only talks to the network. *)
Lemma sendHTTPRequest_grows (client : Client) (req : Request) (code : Z)
    (st : State J) :
  grows netEvent st (snd (sendHTTPRequest w client req code st)).
Proof.
  rewrite sendHTTPRequest_run.
  pose proof (doLoop_grows (Hops w) client req [] st) as HDo. fold (Do w client req st) in HDo.
  destruct (Do w client req st) as [[err|resp] st1]; simpl in HDo; [exact HDo |].
  assert (Hread : grows netEvent st (after st1 [EvReadAll])).
  { eapply grows_trans; [exact HDo | now apply grows_after]. }
  destruct (Body resp) as [err|body]; [exact Hread |].
  destruct (StatusCode resp =? code); [| exact Hread].
  destruct Hread as (evs & Htr & Hq). now exists evs.
Qed.

Lemma sendHTTPRequest_roundTrips (client : Client) (req : Request) (code : Z)
    (st : State J) :
  followsNothing client ->
  roundTrips (trace (snd (sendHTTPRequest w client req code st))) =
  roundTrips (trace st) ++ [outgoing client req st].
Proof.
  intros Hpol. rewrite sendHTTPRequest_run.
  pose proof (doLoop_followsNothing w (Hops w) client req [] st Hpol) as Hst.
  fold (Do w client req st) in Hst.
  pose proof (exchange_roundTrips w client req st) as Hone. rewrite <- Hst in Hone.
  destruct (Do w client req st) as [[err|resp] st1]; simpl in Hone; [exact Hone |].
  destruct (Body resp) as [err|body]; [| destruct (StatusCode resp =? code)];
    cbn [snd after trace]; rewrite roundTrips_app; simpl;
    now rewrite app_nil_r.
Qed.

(** X6. With a client that follows no redirect, [sendHTTPRequest] sends one
    request, whatever comes of it: the request it was given, with the
    cookies the jar holds for its URL.  It does not send it again after a
    failure, and sends nothing after a redirect. *)
Theorem sendHTTPRequest_once (client : Client) (req : Request) (code : Z)
    (st : State J) :
  followsNothing client ->
  roundTrips (trace (snd (sendHTTPRequest w client req code st))) =
    roundTrips (trace st) ++ [outgoing client req st] /\
  URL (outgoing client req st) = URL req /\
  Method (outgoing client req st) = Method req /\
  Payload (outgoing client req st) = Payload req /\
  Sent (outgoing client req st) =
    Sent req ++ Cookies (jarAt (Jar client) (jars st)) (URL req).
Proof.
  intros Hpol. split; [now apply sendHTTPRequest_roundTrips | now repeat split].
Qed.

(** X7. A connection that fails: [sendHTTPRequest] returns no body and the
    error of the transport behind its own words; the body is not read and
    the jars are as they were. *)
Theorem sendHTTPRequest_unreachable (client : Client) (req : Request)
    (code : Z) (st : State J) (err : error) :
  RoundTrip w (trace st) (outgoing client req st) = inl err ->
  sendHTTPRequest w client req code st =
  ((EmptyString,
    Some (ErrorString ("couldn't send http request. " +:+ Error err))),
   after st [EvRoundTrip (outgoing client req st)]).
Proof.
  intros Hfail. rewrite sendHTTPRequest_run. unfold Do.
  assert (Hex : exchange w client req st =
                (inl err, after st [EvRoundTrip (outgoing client req st)])).
  { rewrite exchange_run. cbv zeta. now rewrite Hfail. }
  destruct (Hops w); simpl; unfold bind; now rewrite Hex.
Qed.

End Frame.

Section Steps.

Context {J : Type} `{CookieJar J}.
Variable w : World.

Lemma createHTTPRequest_grows (method url payload : string)
    (hs : gmap string string) (st : State J) :
  snd (createHTTPRequest w method url payload hs st) = after st [EvNow].
Proof.
  rewrite createHTTPRequest_run. cbv zeta.
  now destruct (NewRequestErr w method _).
Qed.

Lemma request_then_send_grows (client : Client) (req : Request) (code : Z)
    (st : State J) :
  grows netEvent st
    (snd (sendHTTPRequest w client req code (after st [EvNow]))).
Proof.
  eapply grows_trans; [now apply (grows_after netEvent st [EvNow]) |].
  apply sendHTTPRequest_grows.
Qed.

(** [forrad] reads the clock and talks to the site, nothing else. *)
Lemma forrad_grows_net (client : Client) (hs : gmap string string) (st : State J) :
  grows netEvent st (snd (forrad w client hs st)).
Proof.
  rewrite forrad_run.
  pose proof (createHTTPRequest_grows "GET" forradURL EmptyString hs st) as Hreq.
  destruct (createHTTPRequest w "GET" forradURL EmptyString hs st) as [[err|req] st1];
    cbn [snd] in Hreq; subst st1.
  - now apply grows_after.
  - pose proof (request_then_send_grows client req 200 st) as Hsend.
    destruct (sendHTTPRequest w client req 200 (after st [EvNow]))
      as [[body [err|]] st2]; exact Hsend.
Qed.

Lemma forrad_grows (client : Client) (hs : gmap string string) (st : State J) :
  grows fetchEvent st (snd (forrad w client hs st)).
Proof. exact (grows_mono _ _ _ _ net_is_fetch (forrad_grows_net client hs st)). Qed.

Lemma forrad_lookups (client : Client) (hs : gmap string string) (st : State J) :
  lookups (trace (snd (forrad w client hs st))) = lookups (trace st).
Proof. apply grows_net_lookups, forrad_grows_net. Qed.

(** After its lookups, [login] reads the clock and talks to the site. *)
Lemma login_grows_net (client : Client) (hs : gmap string string) (st : State J) :
  grows netEvent (snd (createLoginPayload w st)) (snd (login w client hs st)).
Proof.
  rewrite login_run.
  destruct (createLoginPayload w st) as [[payload [err|]] st1]; cbn [snd];
    [apply grows_refl |].
  pose proof (createHTTPRequest_grows "POST" loginURL payload hs st1) as Hreq.
  destruct (createHTTPRequest w "POST" loginURL payload hs st1) as [[err|req] st2];
    cbn [snd] in Hreq; subst st2.
  - now apply grows_after.
  - apply request_then_send_grows.
Qed.

Lemma login_grows (client : Client) (hs : gmap string string) (st : State J) :
  grows fetchEvent st (snd (login w client hs st)).
Proof.
  eapply grows_trans; [apply createLoginPayload_grows |].
  exact (grows_mono _ _ _ _ net_is_fetch (login_grows_net client hs st)).
Qed.

(** A [login] that returned [nil] looked both credentials up, once each. *)
Lemma login_nil_lookups (client : Client) (hs : gmap string string)
    (st st' : State J) :
  login w client hs st = (None, st') ->
  lookups (trace st') = lookups (trace st) ++ ["PERSONNR"; "PASSWORD"].
Proof.
  intros Hlogin.
  pose proof (login_grows_net client hs st) as Hnet.
  rewrite Hlogin in Hnet. cbn [snd] in Hnet.
  apply grows_net_lookups in Hnet. rewrite Hnet.
  rewrite login_run, createLoginPayload_run in Hlogin. rewrite createLoginPayload_run.
  destruct (Environ w !! "PERSONNR") as [id|]; [| discriminate].
  destruct (Environ w !! "PASSWORD") as [password|]; [| discriminate].
  cbn [snd after trace]. now rewrite lookups_app.
Qed.

(** X8. [login] only looks up the environment, reads the clock and talks to
    the site, and [forrad] only reads the clock and talks to the site: they
    publish nothing, load no AWS configuration and write no log line, and
    [forrad] looks nothing up, whatever the client and the outcome. *)
Theorem scraping_is_quiet (client : Client) (hs : gmap string string)
    (st : State J) :
  (grows fetchEvent st (snd (login w client hs st)) /\
   publishes (trace (snd (login w client hs st))) = publishes (trace st) /\
   configLoads (trace (snd (login w client hs st))) = configLoads (trace st)) /\
  (grows netEvent st (snd (forrad w client hs st)) /\
   publishes (trace (snd (forrad w client hs st))) = publishes (trace st) /\
   configLoads (trace (snd (forrad w client hs st))) = configLoads (trace st) /\
   lookups (trace (snd (forrad w client hs st))) = lookups (trace st)).
Proof.
  split.
  - split; [apply login_grows | apply grows_fetch_quiet, login_grows].
  - split; [apply forrad_grows_net |].
    destruct (grows_fetch_quiet _ _ (forrad_grows client hs st)) as [Hp Hc].
    split; [exact Hp |]. split; [exact Hc | apply forrad_lookups].
Qed.

(** X9. [forrad] never reports availability together with an error, and a
    response of another status than 200 is an error: the flag is false and
    the error is the status mismatch that names 200, the status received
    and the URL. *)
Theorem forrad_wants_200 (client : Client) (hs : gmap string string)
    (st : State J) :
  (snd (fst (forrad w client hs st)) <> None ->
   fst (fst (forrad w client hs st)) = false) /\
  (forall req st1 resp st2 body,
     createHTTPRequest w "GET" forradURL EmptyString hs st = (inr req, st1) ->
     Do w client req st1 = (inr resp, st2) ->
     Body resp = inr body ->
     StatusCode resp <> 200 ->
     fst (forrad w client hs st) =
       (false,
        Some (statusMismatch 200 (StatusCode resp) (URL (RespRequest resp))))).
Proof.
  split.
  - rewrite forrad_run.
    destruct (createHTTPRequest w "GET" forradURL EmptyString hs st)
      as [[err|req] st1]; [reflexivity |].
    destruct (sendHTTPRequest w client req 200 st1) as [[body [err|]] st2];
      [reflexivity |]. intros Hn. now contradiction Hn.
  - intros req st1 resp st2 body Hreq HDo Hbody Hne.
    rewrite forrad_run, Hreq, sendHTTPRequest_run, HDo, Hbody.
    apply Z.eqb_neq in Hne. now rewrite Hne.
Qed.

(** X10. [send] leaves the session alone: it sends no request and changes no
    jar; and it publishes at most once, the fixed notification to the topic
    of the environment. *)
Theorem send_keeps_session (new : bool) (st : State J) :
  roundTrips (trace (snd (send w new st))) = roundTrips (trace st) /\
  jars (snd (send w new st)) = jars st /\
  (publishes (trace (snd (send w new st))) = publishes (trace st) \/
   exists topic,
     new = true /\ Environ w !! "TOPIC" = Some topic /\
     publishes (trace (snd (send w new st))) =
       publishes (trace st) ++ [notification topic]).
Proof.
  destruct new; [| now repeat split; try left].
  rewrite send_true_run. cbv zeta.
  destruct (Environ w !! "TOPIC") as [topic|];
    [destruct (LoadDefaultAWSConfigErr w _) |];
    cbn [snd after trace jars]; rewrite roundTrips_app, publishes_app; simpl;
    rewrite ?app_nil_r; (split; [reflexivity |]); (split; [reflexivity |]);
    try (now left).
  right. now exists topic.
Qed.

End Steps.

Section Invocation.

Context {J : Type} `{CookieJar J}.
Variable w : World.

Lemma forradURL_stamped (stamp : string) :
  ReplaceAll forradURL "{epoch}" stamp = widgetURL stamp.
Proof.
  change forradURL with
    (Join ["https://www.stockholmshem.se/widgets/?callback=jQuery17105048823634686723_";
           "&widgets%5B%5D=alert&widgets%5B%5D=objektlista%40forrad&_=";
           EmptyString] "{epoch}").
  rewrite ReplaceAll_Join.
  - unfold widgetURL. cbn [Join]. now rewrite append_empty_r.
  - reflexivity.
  - repeat constructor.
Qed.

Lemma send_roundTrips (new : bool) (st : State J) :
  roundTrips (trace (snd (send w new st))) = roundTrips (trace st).
Proof.
  destruct new; [| reflexivity]. rewrite send_true_run. cbv zeta.
  destruct (Environ w !! "TOPIC") as [topic|];
    [destruct (LoadDefaultAWSConfigErr w _) |];
    cbn [snd after trace]; rewrite roundTrips_app; simpl; now rewrite app_nil_r.
Qed.

Lemma send_publishes (new : bool) (st : State J) :
  publishes (trace (snd (send w new st))) = publishes (trace st) \/
  exists topic,
    new = true /\ Environ w !! "TOPIC" = Some topic /\
    publishes (trace (snd (send w new st))) =
      publishes (trace st) ++ [notification topic].
Proof.
  destruct new; [| now left]. rewrite send_true_run. cbv zeta.
  destruct (Environ w !! "TOPIC") as [topic|];
    [destruct (LoadDefaultAWSConfigErr w _) |];
    cbn [snd after trace]; rewrite publishes_app; simpl; rewrite ?app_nil_r;
    try (now left).
  right. now exists topic.
Qed.

(** The requests of [login] with a client that follows no redirect. *)
Lemma login_roundTrips (client : Client) (hs : gmap string string)
    (st : State J) :
  followsNothing client ->
  exists reqs,
    roundTrips (trace (snd (login w client hs st))) = roundTrips (trace st) ++ reqs /\
    (reqs = [] \/ exists p, reqs = [p] /\ isLoginRequest p) /\
    (fst (login w client hs st) = None -> reqs <> []).
Proof.
  intros Hpol. rewrite login_run, createLoginPayload_run.
  destruct (Environ w !! "PERSONNR") as [user|];
    [destruct (Environ w !! "PASSWORD") as [pass|] |].
  - rewrite createHTTPRequest_run. cbv zeta. rewrite loginURL_plain.
    destruct (NewRequestErr w "POST" loginURL).
    + exists []. cbn [fst snd after trace]. rewrite !roundTrips_app. simpl.
      rewrite !app_nil_r.
      split; [reflexivity |]. split; [now left | discriminate].
    + match goal with
      | |- context [sendHTTPRequest w client ?r 302 ?s] =>
          exists [outgoing client r s]
      end.
      cbn [fst snd]. rewrite sendHTTPRequest_roundTrips by exact Hpol.
      cbn [after trace]. rewrite !roundTrips_app. simpl. rewrite !app_nil_r.
      split; [reflexivity |]. split; [| discriminate].
      right. eexists. split; [reflexivity |].
      unfold isLoginRequest, outgoing. cbn [Method URL AddCookies].
      match goal with
      | |- context [map_fold (HeaderSet w) ?r0 hs] =>
          now destruct (headers_keep w hs r0) as (-> & -> & _)
      end.
  - exists []. cbn [fst snd after trace]. rewrite roundTrips_app. simpl.
    split; [reflexivity |]. split; [now left | discriminate].
  - exists []. cbn [fst snd after trace]. rewrite roundTrips_app. simpl.
    split; [reflexivity |]. split; [now left | discriminate].
Qed.

(** The requests of [forrad] with a client that follows no redirect. *)
Lemma forrad_roundTrips (client : Client) (hs : gmap string string)
    (st : State J) :
  followsNothing client ->
  exists reqs,
    roundTrips (trace (snd (forrad w client hs st))) = roundTrips (trace st) ++ reqs /\
    (reqs = [] \/ exists g, reqs = [g] /\ isWidgetRequest g) /\
    (snd (fst (forrad w client hs st)) = None -> reqs <> []).
Proof.
  intros Hpol. rewrite forrad_run, createHTTPRequest_run. cbv zeta.
  rewrite forradURL_stamped.
  destruct (NewRequestErr w "GET" _).
  - exists []. cbn [fst snd after trace]. rewrite roundTrips_app. simpl.
    split; [reflexivity |]. split; [now left | discriminate].
  - match goal with
    | |- context [sendHTTPRequest w client ?r 200 ?s] =>
        pose proof (sendHTTPRequest_roundTrips w client r 200 s Hpol) as Hone;
        exists [outgoing client r s];
        destruct (sendHTTPRequest w client r 200 s) as [[body [err|]] st2]
    end; cbn [fst snd] in *; rewrite Hone; cbn [after trace];
      rewrite roundTrips_app; simpl; rewrite app_nil_r;
      (split; [reflexivity |]); (split; [| discriminate]);
      right; eexists; (split; [reflexivity |]);
      unfold isWidgetRequest, outgoing; cbn [Method URL Payload AddCookies];
      match goal with
      | |- context [map_fold (HeaderSet w) ?r0 hs] =>
          destruct (headers_keep w hs r0) as (-> & -> & -> & _)
      end; cbn [Method URL Payload]; eauto.
Qed.

(** X11. One invocation sends at most two requests and repeats none: the login
    as a POST of the login URL, and after it the check as a GET of the
    widget URL with one integer stamp in both places.  An invocation that
    returns [nil] has sent exactly these two. *)
Theorem handler_requests (st : State J) :
  exists reqs,
    roundTrips (trace (snd (handler w st))) = roundTrips (trace st) ++ reqs /\
    loginThenWidget reqs /\
    (fst (handler w st) = None -> length reqs = 2%nat).
Proof.
  rewrite handler_run.
  destruct (cookiejarNewErr w) as [err|] eqn:Hnew.
  - unfold createHTTPClient, cookiejarNew, bind. rewrite Hnew. cbn [ret fst snd].
    exists []. rewrite app_nil_r. split; [reflexivity |].
    split; [now left | discriminate].
  - rewrite (createHTTPClient_ok w st Hnew).
    pose proof (sessionClient_lastResponse st) as Hlast.
    assert (Hpol : followsNothing (sessionClient st))
      by (intros r via; now rewrite Hlast).
    destruct (login_roundTrips (sessionClient st) headers (withJar st) Hpol)
      as (reqs1 & Htr1 & Hshape1 & Hsome1).
    destruct (login w (sessionClient st) headers (withJar st)) as [[err|] st1];
      cbn [fst snd] in *.
    + exists reqs1. split; [exact Htr1 |]. split; [| discriminate].
      destruct Hshape1 as [->|(p & -> & Hp)]; [now left | right; left; eauto].
    + destruct Hshape1 as [->|(p & -> & Hp)]; [now contradiction Hsome1 |].
      destruct (forrad_roundTrips (sessionClient st) headers st1 Hpol)
        as (reqs2 & Htr2 & Hshape2 & Hsome2).
      assert (Hboth : loginThenWidget ([p] ++ reqs2)).
      { destruct Hshape2 as [->|(g & -> & Hg)].
        - right. left. eauto.
        - right. right. exists p, g. auto. }
      destruct (forrad w (sessionClient st) headers st1) as [[new [err|]] st2];
        cbn [fst snd] in *.
      * exists ([p] ++ reqs2). rewrite Htr2, Htr1, <- app_assoc.
        split; [reflexivity |]. split; [exact Hboth | discriminate].
      * exists ([p] ++ reqs2). rewrite send_roundTrips, Htr2, Htr1, <- app_assoc.
        split; [reflexivity |]. split; [exact Hboth |]. intros _.
        destruct Hshape2 as [->|(g & -> & Hg)]; [now contradiction Hsome2 | reflexivity].
Qed.

(** X12. One invocation publishes at most one message, and only after a login
    that returned [nil] and a check that returned true with no error: the
    fixed notification, to the topic of the environment. *)
Theorem handler_publishes (st : State J) :
  publishes (trace (snd (handler w st))) = publishes (trace st) \/
  exists topic st1 st2,
    Environ w !! "TOPIC" = Some topic /\
    publishes (trace (snd (handler w st))) =
      publishes (trace st) ++ [notification topic] /\
    login w (sessionClient st) headers (withJar st) = (None, st1) /\
    forrad w (sessionClient st) headers st1 = ((true, None), st2).
Proof.
  rewrite handler_run.
  destruct (cookiejarNewErr w) as [err|] eqn:Hnew.
  - unfold createHTTPClient, cookiejarNew, bind. rewrite Hnew. now left.
  - rewrite (createHTTPClient_ok w st Hnew).
    destruct (grows_fetch_quiet _ _
                (login_grows w (sessionClient st) headers (withJar st)))
      as [Hp1 _].
    destruct (login w (sessionClient st) headers (withJar st)) as [[err|] st1];
      cbn [snd] in Hp1; [now left |].
    destruct (grows_fetch_quiet _ _
                (forrad_grows w (sessionClient st) headers st1))
      as [Hp2 _].
    destruct (forrad w (sessionClient st) headers st1) as [[new [err|]] st2]
      eqn:Hforrad; cbn [snd] in Hp2.
    + left. cbn [snd]. now rewrite Hp2, Hp1.
    + destruct (send_publishes new st2) as [Hsame|(topic & -> & Htopic & Hpub)].
      * left. now rewrite Hsame, Hp2, Hp1.
      * right. exists topic, st1, st2.
        rewrite Hpub, Hp2, Hp1. repeat split; assumption.
Qed.

(** X13. The timeout of the client is the given milliseconds in nanoseconds as
    long as that fits an [int64]; creating the client makes no external
    call and leaves the jars that exist as they are. *)
Theorem createHTTPClient_timeout (timeout : Z) (st : State J) :
  cookiejarNewErr w = None ->
  - 9223372036854 <= timeout <= 9223372036854 ->
  exists client st',
    createHTTPClient w timeout st = (inr client, st') /\
    Timeout client = timeout * 1000000 /\
    trace st' = trace st /\
    length (jars st') = S (length (jars st)) /\
    forall p, (p < length (jars st))%nat -> jars st' !! p = jars st !! p.
Proof.
  intros Hnew Hfit. unfold createHTTPClient, cookiejarNew, bind. rewrite Hnew.
  eexists _, _. split; [reflexivity |]. cbn [Timeout trace jars].
  split; [rewrite wrap64_small; lia |]. split; [reflexivity |].
  split; [rewrite length_app; simpl; lia |].
  intros p Hp. now apply lookup_app_l.
Qed.

End Invocation.

Section Soundness.

Context {J : Type} `{CookieJar J}.
Variable w : World.

(** X14. [login] returns [nil] only after both credentials were found, the login
    request was built from them, and [client.Do] delivered a response of
    status 302 whose body was read. *)
Theorem login_nil_302 (client : Client) (hs : gmap string string)
    (st st' : State J) :
  login w client hs st = (None, st') ->
  exists id password req st1 resp st2 body,
    Environ w !! "PERSONNR" = Some id /\
    Environ w !! "PASSWORD" = Some password /\
    createHTTPRequest w "POST" loginURL
      ("Username=" +:+ id +:+ "&Password=" +:+ password) hs
      (after st [EvLookupEnv "PERSONNR"; EvLookupEnv "PASSWORD"]) = (inr req, st1) /\
    Do w client req st1 = (inr resp, st2) /\
    StatusCode resp = 302 /\ Body resp = inr body.
Proof.
  rewrite login_run, createLoginPayload_run.
  destruct (Environ w !! "PERSONNR") as [id|]; [| discriminate].
  destruct (Environ w !! "PASSWORD") as [password|]; [| discriminate].
  destruct (createHTTPRequest w "POST" loginURL _ hs _) as [[err|req] st1] eqn:Hreq;
    [discriminate |].
  rewrite sendHTTPRequest_run.
  destruct (Do w client req st1) as [[err|resp] st2] eqn:HDo; [discriminate |].
  destruct (Body resp) as [err|body] eqn:Hbody; [discriminate |].
  destruct (Z.eqb_spec (StatusCode resp) 302) as [Hcode|Hne]; [| discriminate].
  intros _. exists id, password, req, st1, resp, st2, body.
  repeat split; assumption.
Qed.

(** X15. [forrad] returns a flag with no error only after the widget request was
    built and [client.Do] delivered a response of status 200 whose body was
    read; the flag is then the absence of the marker from that body. *)
Theorem forrad_ok_200 (client : Client) (hs : gmap string string)
    (st st' : State J) (flag : bool) :
  forrad w client hs st = ((flag, None), st') ->
  exists req st1 resp st2 body,
    createHTTPRequest w "GET" forradURL EmptyString hs st = (inr req, st1) /\
    Do w client req st1 = (inr resp, st2) /\
    StatusCode resp = 200 /\ Body resp = inr body /\
    flag = negb (Contains body searchString).
Proof.
  rewrite forrad_run.
  destruct (createHTTPRequest w "GET" forradURL EmptyString hs st)
    as [[err|req] st1] eqn:Hreq; [discriminate |].
  rewrite sendHTTPRequest_run.
  destruct (Do w client req st1) as [[err|resp] st2] eqn:HDo; [discriminate |].
  destruct (Body resp) as [err|body] eqn:Hbody; [discriminate |].
  destruct (Z.eqb_spec (StatusCode resp) 200) as [Hcode|Hne]; [| discriminate].
  intros Heq. injection Heq as <- _.
  exists req, st1, resp, st2, body. repeat split; assumption.
Qed.

(** X16. When the check finds the marker, the invocation ends there with [nil]:
    [TOPIC] is not looked up, so an environment without [TOPIC] goes
    unnoticed until units are listed. *)
Theorem handler_nothing_new (st st1 st2 : State J) :
  cookiejarNewErr w = None ->
  login w (sessionClient st) headers (withJar st) = (None, st1) ->
  forrad w (sessionClient st) headers st1 = ((false, None), st2) ->
  handler w st = (None, st2) /\
  lookups (trace st2) = lookups (trace st) ++ ["PERSONNR"; "PASSWORD"].
Proof.
  intros Hnew Hlogin Hforrad.
  rewrite handler_run, (createHTTPClient_ok w st Hnew), Hlogin, Hforrad.
  split; [reflexivity |].
  pose proof (login_nil_lookups w _ _ _ _ Hlogin) as Hl1.
  pose proof (forrad_lookups w (sessionClient st) headers st1) as Hl2.
  rewrite Hforrad in Hl2. cbn [snd] in Hl2. now rewrite Hl2, Hl1.
Qed.

End Soundness.

(* ===================================================================== *)
(** * The further properties in the example worlds *)
(* ===================================================================== *)

(** A method with a blank is rejected before anything is sent. *)
Lemma createHTTPRequest_rejected_witness :
  createHTTPRequest strict "G E T" loginURL EmptyString headers session =
  (inl (ErrorString
          ("couldn't create request for G E T " +:+ loginURL +:+
           ". net/http: invalid method")),
   after session [EvNow]).
Proof.
  exact (createHTTPRequest_rejected strict "G E T" loginURL EmptyString headers
           session (ErrorString "net/http: invalid method") eq_refl).
Defined.


(** The login URL holds no placeholder. *)
Lemma createHTTPRequest_plain_witness :
  exists req st',
    createHTTPRequest unitsFree "POST" loginURL payload headers session
      = (inr req, st') /\
    URL req = loginURL.
Proof.
  eexists _, _. split; [reflexivity |].
  exact (createHTTPRequest_plain unitsFree "POST" loginURL payload headers
           session _ _ eq_refl eq_refl).
Defined.

(** Two worlds with the payload of the examples have its credentials. *)
Lemma loginPayload_unambiguous_witness :
  fst (createLoginPayload unitsFree start) = fst (createLoginPayload rejected session) /\
  "19700101-0000" = "19700101-0000" /\ "p&ss%20word" = "p&ss%20word".
Proof.
  split; [reflexivity |].
  exact (loginPayload_unambiguous unitsFree rejected start session
           "19700101-0000" "p&ss%20word" "19700101-0000" "p&ss%20word"
           eq_refl eq_refl eq_refl eq_refl eq_refl eq_refl eq_refl).
Defined.

(** The rejected login went out once. *)
Lemma sendHTTPRequest_once_witness :
  roundTrips (trace (snd (sendHTTPRequest rejected client post 302 session))) = [post].
Proof.
  refine (proj1 (sendHTTPRequest_once rejected client post 302 session _)).
  intros req via. discriminate.
Defined.

(** Without a connection the login request fails with the transport's
    error. *)
Lemma sendHTTPRequest_unreachable_witness :
  sendHTTPRequest offline client post 302 session =
  ((EmptyString,
    Some (ErrorString "couldn't send http request. dial tcp: i/o timeout")),
   after session [EvRoundTrip post]).
Proof.
  exact (sendHTTPRequest_unreachable offline client post 302 session
           (ErrorString "dial tcp: i/o timeout") eq_refl).
Defined.

(** A widget answer of status 302 is an error of [forrad]. *)
Lemma forrad_wants_200_witness :
  exists url,
    fst (forrad expired client headers session) =
    (false, Some (statusMismatch 200 302 url)).
Proof.
  eexists.
  refine (proj2 (forrad_wants_200 expired client headers session)
            _ _ _ _ EmptyString eq_refl eq_refl eq_refl _).
  discriminate.
Defined.

(** The ten seconds of [handler], in nanoseconds. *)
Lemma createHTTPClient_timeout_witness :
  exists c st',
    createHTTPClient unitsFree 10000 start = (inr c, st') /\
    Timeout c = 10000000000.
Proof.
  destruct (createHTTPClient_timeout unitsFree 10000 start eq_refl)
    as (c & st' & Hrun & Htime & _); [lia |].
  now exists c, st'.
Defined.

(** The login of the examples returns [nil] on a 302. *)
Lemma login_nil_302_witness :
  exists resp, StatusCode resp = 302 /\ RespCookies resp = [sessionCookie].
Proof.
  assert (Hlogin : login unitsFree client headers session =
                   (None, snd (login unitsFree client headers session)))
    by (vm_compute; reflexivity).
  destruct (login_nil_302 unitsFree client headers session _ Hlogin)
    as (id & password & req & st1 & resp & st2 & body & Hid & Hpw & Hreq & HDo & Hcode & _).
  exists resp. split; [exact Hcode |].
  vm_compute in Hid, Hpw. injection Hid as <-. injection Hpw as <-.
  vm_compute in Hreq. injection Hreq as <- <-.
  vm_compute in HDo. injection HDo as <- _. reflexivity.
Defined.

(** The check of the examples finds the marker in a 200. *)
Lemma forrad_ok_200_witness :
  exists resp, StatusCode resp = 200 /\ Body resp = inr noHitsText.
Proof.
  assert (Hforrad : forrad nothingFree client headers session =
                    ((false, None), snd (forrad nothingFree client headers session)))
    by (vm_compute; reflexivity).
  destruct (forrad_ok_200 nothingFree client headers session _ false Hforrad)
    as (req & st1 & resp & st2 & body & Hreq & HDo & Hcode & Hbody & _).
  exists resp. split; [exact Hcode |].
  vm_compute in Hreq. injection Hreq as <- <-.
  vm_compute in HDo. injection HDo as <- _. reflexivity.
Defined.

(** Nothing listed: the invocation ends without a look at [TOPIC]. *)
Lemma handler_nothing_new_witness :
  fst (handler nothingFree start) = None /\
  lookups (trace (snd (handler nothingFree start))) = ["PERSONNR"; "PASSWORD"].
Proof.
  assert (Hlogin : login nothingFree (sessionClient start) headers (withJar start) =
                   (None, snd (login nothingFree client headers session)))
    by (vm_compute; reflexivity).
  assert (Hforrad : forrad nothingFree (sessionClient start) headers
                      (snd (login nothingFree client headers session)) =
                    ((false, None), snd (handler nothingFree start)))
    by (vm_compute; reflexivity).
  destruct (handler_nothing_new nothingFree start _ _ eq_refl Hlogin Hforrad)
    as [Hrun Hlook].
  split; [exact (f_equal fst Hrun) | exact Hlook].
Defined.
